(** * NeoKunChat: the chat widget of the portfolio page (index.tsx)

    A shallow embedding of the chat component [NeoKunChat] and of
    [callOpenRouter]: the React state cells, the event handlers
    [handleFeedback], [handleSendMessage], [toggleChat], the greeting timer,
    and the points where [handleSendMessage] is suspended on a provider.

    Conventions.
    - A JavaScript string is the list of its UTF-16 code units.
    - A handler reads the state cells through the closure of the render it
      was created in and writes them through the setters; the functional
      setters ([setMessages(prev => ...)]) act on the live value.  In the
      model a handler takes the captured render [snap] and transforms the
      live state.
    - A provider call is an event of the trace; what the provider answers is
      an input of the step that resumes the handler.
    - [console.error] / [console.warn] and the cells [showInfo] and the two
      refs are not part of the model: no handler below reads them. *)

From Stdlib Require Import List NArith QArith Bool String Ascii Arith Lia.
Import ListNotations.
Local Close Scope Q_scope.
Local Open Scope nat_scope.
Local Open Scope list_scope.

(** ** JavaScript values *)

Set Warnings "-register-all".

Module JS.

Definition jsstring := list N.

(** An ASCII literal of the source as a JavaScript string. *)
Definition lit (s : string) : jsstring :=
  map N_of_ascii (list_ascii_of_string s).

(** WhiteSpace and LineTerminator code units, the ones
    [String.prototype.trim] strips. *)
Definition isWhiteSpace (c : N) : bool :=
  ((c =? 9) || (c =? 10) || (c =? 11) || (c =? 12) || (c =? 13)
   || (c =? 32) || (c =? 160) || (c =? 5760)
   || ((8192 <=? c) && (c <=? 8202))
   || (c =? 8232) || (c =? 8233) || (c =? 8239) || (c =? 8287)
   || (c =? 12288) || (c =? 65279))%N.

Fixpoint trimStart (s : jsstring) : jsstring :=
  match s with
  | [] => []
  | c :: s' => if isWhiteSpace c then trimStart s' else s
  end.

Definition trimEnd (s : jsstring) : jsstring := rev (trimStart (rev s)).

Definition trim (s : jsstring) : jsstring := trimEnd (trimStart s).

(** Values as [response.json()] and the SDK hand them over, plus
    [undefined].  An object is the list of its own properties. *)
Inductive value : Type :=
| Undefined
| Null
| Bool (b : bool)
| Num (q : Q)
| Str (s : jsstring)
| Arr (xs : list value)
| Obj (fields : list (jsstring * value)).

(** What a [throw] or a rejected promise carries. *)
Inductive exn : Type :=
| Error (message : jsstring)      (* new Error(message) *)
| TypeError                       (* property read on null / undefined *)
| Rejection (reason : value).     (* whatever a provider rejects with *)

(** Completion of a call: it returns or it throws. *)
Inductive completion (A : Type) : Type :=
| Normal (a : A)
| Throw (e : exn).
Arguments Normal {A} a.
Arguments Throw {A} e.

Definition jsstring_eqb (a b : jsstring) : bool :=
  if list_eq_dec N.eq_dec a b then true else false.

Fixpoint lookup (k : jsstring) (fields : list (jsstring * value)) : value :=
  match fields with
  | [] => Undefined
  | (k', v) :: rest => if jsstring_eqb k k' then v else lookup k rest
  end.

(** [ToBoolean]. *)
Definition truthy (v : value) : bool :=
  match v with
  | Undefined | Null => false
  | Bool b => b
  | Num q => negb (Qeq_bool q 0)
  | Str s => match s with [] => false | _ => true end
  | Arr _ | Obj _ => true
  end.

(** [v.k] for a property name [k] that no built-in prototype defines
    (the source reads [choices], [message] and [content] only). *)
Definition get (v : value) (k : jsstring) : completion value :=
  match v with
  | Undefined | Null => Throw TypeError
  | Obj fields => Normal (lookup k fields)
  | _ => Normal Undefined
  end.

(** [v?.k], same restriction on [k]. *)
Definition get_opt (v : value) (k : jsstring) : value :=
  match v with
  | Obj fields => lookup k fields
  | _ => Undefined
  end.

(** [v?.[0]]. *)
Definition index0_opt (v : value) : value :=
  match v with
  | Arr xs => match xs with [] => Undefined | x :: _ => x end
  | Str s => match s with [] => Undefined | c :: _ => Str [c] end
  | Obj fields => lookup (lit "0") fields
  | _ => Undefined
  end.

(** [a || b]. *)
Definition or_else (a b : value) : value := if truthy a then a else b.

(** [!s] for a string, [!k] for an optional string. *)
Definition falsy_string (s : jsstring) : bool :=
  match s with [] => true | _ => false end.

End JS.
Import JS.

(** ** The transcript *)

Inductive Role : Type := user | model.

Inductive Feedback : Type := up | down.

Definition Feedback_eqb (a b : Feedback) : bool :=
  match a, b with
  | up, up | down, down => true
  | _, _ => false
  end.

(** [{role, text, feedback?}].  The declared type of [text] is [string];
    [callOpenRouter] returns an untyped value that is stored as it is, so
    the field holds a JavaScript value. *)
Record Message : Type := mkMessage {
  role : Role;
  text : value;
  feedback : option Feedback
}.

Definition msg (r : Role) (t : jsstring) : Message := mkMessage r (Str t) None.

(** A message without its feedback mark. *)
Definition turn (m : Message) : Role * value := (role m, text m).

(** ** The Primary SDK and the Backup endpoint, as seen by the component *)

(** A chat session object of the SDK. *)
Inductive Chat : Type := ChatHandle (id : nat).

Record ProcessEnv : Type := mkEnv {
  API_KEY : option jsstring;
  OPENROUTER_API_KEY : option jsstring
}.

(** An entry of [messages] in the request body. *)
Record ORMessage : Type := mkOR {
  or_role : jsstring;
  or_content : value
}.

Record ORBody : Type := mkBody {
  body_model : jsstring;
  body_messages : list ORMessage;
  body_temperature : Q;
  body_max_tokens : N
}.

Record FetchRequest : Type := mkFetch {
  url : jsstring;
  method : jsstring;
  headers : list (jsstring * jsstring);
  body : ORBody
}.

(** What [fetch] resolves with: [ok], [statusText], and what
    [response.json()] settles with. *)
Record Response : Type := mkResponse {
  ok : bool;
  statusText : jsstring;
  json : completion value
}.

(** ** State cells of [NeoKunChat] *)

Record State : Type := mkState {
  isOpen : bool;
  messages : list Message;
  input : jsstring;
  isTyping : bool;
  showNotification : bool;
  chatClient : option Chat;
  isBackupActive : bool
}.

Definition initialState : State :=
  mkState false [] [] false false None false.

(** What a handler does to the outside, in the order it does it. *)
Inductive Event : Type :=
| EvMessage (m : Message)                  (* a setMessages call that adds m *)
| EvCreateChat (apiKey : jsstring)         (* new GoogleGenAI; ai.chats.create *)
| EvSendMessage (c : Chat) (message : jsstring)   (* c.sendMessage *)
| EvFetch (req : FetchRequest).            (* fetch(url, req) *)

(** A handler body: it transforms the live state and emits events. *)
Definition Effect (A : Type) : Type := State -> A * State * list Event.

Definition ret {A} (a : A) : Effect A := fun s => (a, s, []).

Definition bind {A B} (m : Effect A) (k : A -> Effect B) : Effect B :=
  fun s =>
    let '(a, s1, e1) := m s in
    let '(b, s2, e2) := k a s1 in
    (b, s2, e1 ++ e2).

Notation "x <- m ;; k" := (bind m (fun x => k))
  (at level 61, m at next level, right associativity).
Notation "m ;; k" := (bind m (fun _ => k))
  (at level 61, right associativity).

Definition emit (e : Event) : Effect unit := fun s => (tt, s, [e]).

Definition setIsOpen (b : bool) : Effect unit := fun s =>
  (tt, mkState b (messages s) (input s) (isTyping s) (showNotification s)
         (chatClient s) (isBackupActive s), []).

Definition setMessages (f : list Message -> list Message) : Effect unit :=
  fun s =>
  (tt, mkState (isOpen s) (f (messages s)) (input s) (isTyping s)
         (showNotification s) (chatClient s) (isBackupActive s), []).

Definition setInput (v : jsstring) : Effect unit := fun s =>
  (tt, mkState (isOpen s) (messages s) v (isTyping s) (showNotification s)
         (chatClient s) (isBackupActive s), []).

Definition setIsTyping (b : bool) : Effect unit := fun s =>
  (tt, mkState (isOpen s) (messages s) (input s) b (showNotification s)
         (chatClient s) (isBackupActive s), []).

Definition setShowNotification (b : bool) : Effect unit := fun s =>
  (tt, mkState (isOpen s) (messages s) (input s) (isTyping s) b
         (chatClient s) (isBackupActive s), []).

Definition setChatClient (c : option Chat) : Effect unit := fun s =>
  (tt, mkState (isOpen s) (messages s) (input s) (isTyping s)
         (showNotification s) c (isBackupActive s), []).

Definition setIsBackupActive (b : bool) : Effect unit := fun s =>
  (tt, mkState (isOpen s) (messages s) (input s) (isTyping s)
         (showNotification s) (chatClient s) b, []).

(** [setMessages(prev => [...prev, m])]. *)
Definition appendMessage (m : Message) : Effect unit :=
  setMessages (fun prev => prev ++ [m]) ;; emit (EvMessage m).

(** [prev.map((msg, i) => f(msg, i))]. *)
Fixpoint mapi_from {A B} (f : A -> nat -> B) (i : nat) (l : list A) : list B :=
  match l with
  | [] => []
  | x :: l' => f x i :: mapi_from f (S i) l'
  end.

Definition mapi {A B} (f : A -> nat -> B) (l : list A) : list B :=
  mapi_from f 0 l.

(** ** [callOpenRouter] and the handlers *)

(** What the module reads from its surroundings: the persona prompt (a long
    literal in the source), [process.env] and [window.location.href]. *)
Class Config : Type := mkConfig {
  NEO_KUN_SYSTEM_PROMPT : jsstring;
  process_env : ProcessEnv;
  location_href : jsstring
}.

Section NeoKunChat.

Context {cfg : Config}.

(** [m.role === 'model' ? 'assistant' : 'user']. *)
Definition openRouterRole (r : Role) : jsstring :=
  match r with
  | model => lit "assistant"
  | user => lit "user"
  end.

Definition openRouterMessage (m : Message) : ORMessage :=
  mkOR (openRouterRole (role m)) (text m).

(** [callOpenRouter], up to the [fetch]: the request it sends. *)
Definition callOpenRouter_request (history : list Message) : FetchRequest :=
  mkFetch
    (lit "https://openrouter.ai/api/v1/chat/completions")
    (lit "POST")
    [ (lit "Authorization",
       lit "Bearer " ++
         match OPENROUTER_API_KEY process_env with
         | Some k => k
         | None => lit "undefined"
         end);
      (lit "Content-Type", lit "application/json");
      (lit "HTTP-Referer", location_href);
      (lit "X-Title", lit "Kunal Sharma Portfolio") ]
    (mkBody
       (lit "openai/gpt-oss-120b:free")
       (mkOR (lit "system") (Str NEO_KUN_SYSTEM_PROMPT)
          :: map openRouterMessage history)
       (7 # 10)
       1000).

(** [callOpenRouter], from the settled [fetch] on: the [catch] logs and
    rethrows, so every failure leaves as it came. *)
Definition callOpenRouter_settle (fetched : completion Response)
  : completion value :=
  match fetched with
  | Throw error => Throw error
  | Normal response =>
      if negb (ok response) then
        Throw (Error (lit "OpenRouter API Error: " ++ statusText response))
      else
        match json response with
        | Throw error => Throw error
        | Normal data =>
            match get data (lit "choices") with
            | Throw error => Throw error
            | Normal choices =>
                Normal (or_else
                          (get_opt (get_opt (index0_opt choices) (lit "message"))
                                   (lit "content"))
                          (Str []))
            end
        end
  end.

(** [msg.feedback === type ? undefined : type]. *)
Definition toggleFeedback (current : option Feedback) (type : Feedback)
  : option Feedback :=
  match current with
  | Some f => if Feedback_eqb f type then None else Some type
  | None => Some type
  end.

Definition handleFeedback (index : Z) (type : Feedback)
  : Effect (completion unit) :=
  setMessages (fun prev =>
    mapi (fun msg i =>
            if (Z.of_nat i =? index)%Z
            then mkMessage (role msg) (text msg) (toggleFeedback (feedback msg) type)
            else msg) prev) ;;
  ret (Normal tt).

(** Where an invocation of [handleSendMessage] is parked, with the closure
    values it still reads afterwards. *)
Inductive Suspended : Type :=
| AwaitSendMessage (closure_messages : list Message) (userMsg : jsstring)
| AwaitOpenRouter.

Inductive Outcome : Type :=
| Done (c : completion unit)
| Await (k : Suspended).

(** The [catch (error)] block of [handleSendMessage] up to its [await]. *)
Definition fallbackToOpenRouter (closure_messages : list Message)
  (userMsg : jsstring) : Effect Outcome :=
  setIsBackupActive true ;;
  let history := closure_messages ++ [msg user userMsg] in
  emit (EvFetch (callOpenRouter_request history)) ;;
  ret (Await AwaitOpenRouter).

(** [handleSendMessage] from its call to its first [await] or [return].
    [snap] is the render the handler closes over, [created] what
    [new GoogleGenAI(..)] and [ai.chats.create(CHAT_CONFIG)] do if reached. *)
Definition handleSendMessage (snap : State) (created : completion Chat)
  : Effect Outcome :=
  if falsy_string (trim (input snap)) then ret (Done (Normal tt))
  else
    match API_KEY process_env with
    | None =>
        appendMessage
          (msg model (lit "Error: API Key missing. Please check configuration.")) ;;
        ret (Done (Normal tt))
    | Some key =>
        if falsy_string key then
          appendMessage
            (msg model (lit "Error: API Key missing. Please check configuration.")) ;;
          ret (Done (Normal tt))
        else
          let userMsg := input snap in
          setInput [] ;;
          appendMessage (msg user userMsg) ;;
          setIsTyping true ;;
          currentChat <-
            match chatClient snap with
            | Some c => ret (Some c)
            | None =>
                emit (EvCreateChat key) ;;
                match created with
                | Normal c => setChatClient (Some c) ;; ret (Some c)
                | Throw e => ret None
                end
            end ;;
          match currentChat with
          | Some c =>
              if negb (isBackupActive snap) then
                emit (EvSendMessage c userMsg) ;;
                ret (Await (AwaitSendMessage (messages snap) userMsg))
              else
                (* throw new Error("Force Backup") *)
                fallbackToOpenRouter (messages snap) userMsg
          | None => fallbackToOpenRouter (messages snap) userMsg
          end
    end.

(** [handleSendMessage] resumed when [currentChat.sendMessage] settles with
    [result.text] or a rejection. *)
Definition resumeSendMessage (closure_messages : list Message)
  (userMsg : jsstring) (settled : completion (option jsstring))
  : Effect Outcome :=
  match settled with
  | Normal response =>
      appendMessage
        (mkMessage model
           (or_else (match response with Some t => Str t | None => Undefined end)
                    (Str []))
           None) ;;
      setIsTyping false ;;
      ret (Done (Normal tt))
  | Throw error => fallbackToOpenRouter closure_messages userMsg
  end.

(** [handleSendMessage] resumed when [callOpenRouter(history)] settles. *)
Definition resumeOpenRouter (fetched : completion Response) : Effect Outcome :=
  match callOpenRouter_settle fetched with
  | Normal responseText =>
      appendMessage (mkMessage model responseText None) ;;
      setIsTyping false ;;
      ret (Done (Normal tt))
  | Throw backupError =>
      appendMessage
        (msg model (lit "System glitch. Both primary and backup lines are unstable.")) ;;
      setIsTyping false ;;
      ret (Done (Normal tt))
  end.

(** [initChat]. *)
Definition initChat (snap : State) (created : completion Chat) : Effect unit :=
  match chatClient snap with
  | Some _ => ret tt
  | None =>
      match API_KEY process_env with
      | None => ret tt
      | Some key =>
          if falsy_string key then ret tt
          else
            emit (EvCreateChat key) ;;
            match created with
            | Normal chat => setChatClient (Some chat)
            | Throw e => ret tt
            end
      end
  end.

Definition toggleChat (snap : State) (created : completion Chat) : Effect unit :=
  (if negb (isOpen snap) && match chatClient snap with None => true | _ => false end
   then initChat snap created else ret tt) ;;
  setIsOpen (negb (isOpen snap)) ;;
  setShowNotification false.

(** The callback of the greeting timeout.  The effect is re-armed whenever
    [isOpen] or [messages.length] changes, so the closure it runs with is
    current in both. *)
Definition greetingTimeout (snap : State) : Effect unit :=
  if negb (isOpen snap) then
    setShowNotification true ;;
    match messages snap with
    | [] =>
        let greeting :=
          msg model (lit "I can answer questions about Kunal instantly. Ask away.") in
        setMessages (fun _ => [greeting]) ;; emit (EvMessage greeting)
    | _ :: _ => ret tt
    end
  else ret tt.

(** ** One send run to completion *)

(** What the outside answers during one send, if asked. *)
Record Providers : Type := mkProviders {
  created : completion Chat;                  (* the SDK constructor calls *)
  answered : completion (option jsstring);    (* sendMessage, then result.text *)
  fetched : completion Response               (* fetch to the Backup endpoint *)
}.

(** [await handleSendMessage()] with nothing else running in between. *)
Definition send (w : Providers) : Effect Outcome := fun st =>
  (o1 <- handleSendMessage st (created w) ;;
   o2 <- match o1 with
         | Await (AwaitSendMessage ms u) => resumeSendMessage ms u (answered w)
         | _ => ret o1
         end ;;
   match o2 with
   | Await AwaitOpenRouter => resumeOpenRouter (fetched w)
   | _ => ret o2
   end) st.

(** ** The component under arbitrary interleavings

    JavaScript runs each handler segment to its next [await] without
    interruption and React commits the pending state updates before the next
    event is dispatched; so an event handler closes over the live state, and
    a resumed invocation still holds the closure of the render it was
    started in. *)

Record Sys : Type := mkSys {
  ui : State;
  inflight : list (nat * Suspended);   (* suspended handleSendMessage calls *)
  nextId : nat
}.

Definition initialSys : Sys := mkSys initialState [] 0.

Inductive Action : Type :=
| Typed (v : jsstring)                    (* onChange: setInput(e.target.value) *)
| Send (created : completion Chat)        (* send button / Enter: handleSendMessage() *)
| Thumb (index : Z) (type : Feedback)     (* handleFeedback(index, type) *)
| Toggle (created : completion Chat)      (* toggleChat() *)
| Greeting                                (* the greeting timeout fires *)
| SendMessageSettled (id : nat) (r : completion (option jsstring))
| OpenRouterSettled (id : nat) (r : completion Response).

Fixpoint find_task (id : nat) (l : list (nat * Suspended)) : option Suspended :=
  match l with
  | [] => None
  | (i, k) :: l' => if Nat.eqb i id then Some k else find_task id l'
  end.

Fixpoint remove_task (id : nat) (l : list (nat * Suspended))
  : list (nat * Suspended) :=
  match l with
  | [] => []
  | (i, k) :: l' => if Nat.eqb i id then l' else (i, k) :: remove_task id l'
  end.

(** Put a resumed invocation back if it is parked again. *)
Definition park (id : nat) (o : Outcome) (l : list (nat * Suspended))
  : list (nat * Suspended) :=
  match o with
  | Done _ => l
  | Await k => l ++ [(id, k)]
  end.

(** A parked invocation takes the next identifier. *)
Definition fresh (o : Outcome) (n : nat) : nat :=
  match o with
  | Done _ => n
  | Await _ => S n
  end.

Definition step (sys : Sys) (a : Action) : option (Sys * list Event) :=
  match a with
  | Typed v =>
      let '(_, st, evs) := setInput v (ui sys) in
      Some (mkSys st (inflight sys) (nextId sys), evs)
  | Send c =>
      let '(o, st, evs) := handleSendMessage (ui sys) c (ui sys) in
      Some (mkSys st (park (nextId sys) o (inflight sys)) (fresh o (nextId sys)),
            evs)
  | Thumb index type =>
      let '(_, st, evs) := handleFeedback index type (ui sys) in
      Some (mkSys st (inflight sys) (nextId sys), evs)
  | Toggle c =>
      let '(_, st, evs) := toggleChat (ui sys) c (ui sys) in
      Some (mkSys st (inflight sys) (nextId sys), evs)
  | Greeting =>
      let '(_, st, evs) := greetingTimeout (ui sys) (ui sys) in
      Some (mkSys st (inflight sys) (nextId sys), evs)
  | SendMessageSettled id r =>
      match find_task id (inflight sys) with
      | Some (AwaitSendMessage ms u) =>
          let '(o, st, evs) := resumeSendMessage ms u r (ui sys) in
          Some (mkSys st (park id o (remove_task id (inflight sys))) (nextId sys),
                evs)
      | _ => None
      end
  | OpenRouterSettled id r =>
      match find_task id (inflight sys) with
      | Some AwaitOpenRouter =>
          let '(o, st, evs) := resumeOpenRouter r (ui sys) in
          Some (mkSys st (park id o (remove_task id (inflight sys))) (nextId sys),
                evs)
      | _ => None
      end
  end.

Fixpoint run (sys : Sys) (acts : list Action) : option (Sys * list Event) :=
  match acts with
  | [] => Some (sys, [])
  | a :: acts' =>
      match step sys a with
      | None => None
      | Some (sys1, evs1) =>
          match run sys1 acts' with
          | None => None
          | Some (sys2, evs2) => Some (sys2, evs1 ++ evs2)
          end
      end
  end.

(** ** Observations on traces and transcripts *)

Definition isProviderCall (e : Event) : bool :=
  match e with
  | EvMessage _ => false
  | EvCreateChat _ | EvSendMessage _ _ | EvFetch _ => true
  end.

Definition isPrimaryCall (e : Event) : bool :=
  match e with
  | EvSendMessage _ _ => true
  | _ => false
  end.

Definition isSend (a : Action) : bool :=
  match a with
  | Send _ => true
  | _ => false
  end.

(** The messages a trace adds to the transcript. *)
Fixpoint added (evs : list Event) : list Message :=
  match evs with
  | [] => []
  | EvMessage m :: evs' => m :: added evs'
  | _ :: evs' => added evs'
  end.

(** Every [user] entry is directly followed by a [model] entry. *)
Fixpoint turns_closed (rs : list Role) : bool :=
  match rs with
  | [] => true
  | model :: rs' => turns_closed rs'
  | user :: rs' =>
      match rs' with
      | model :: rs'' => turns_closed rs'
      | _ => false
      end
  end.

(** Every [Send] of the run is issued while no other send is suspended. *)
Fixpoint one_at_a_time (sys : Sys) (acts : list Action) : bool :=
  match acts with
  | [] => true
  | a :: acts' =>
      (if isSend a then match inflight sys with [] => true | _ => false end
       else true)
      && match step sys a with
         | None => true
         | Some (sys1, _) => one_at_a_time sys1 acts'
         end
  end.

(** The transcript after [handleFeedback(index, type)]. *)
Definition marked (index : Z) (type : Feedback) (prev : list Message)
  : list Message :=
  mapi (fun msg i =>
          if (Z.of_nat i =? index)%Z
          then mkMessage (role msg) (text msg) (toggleFeedback (feedback msg) type)
          else msg) prev.

(** Two clicks in a row on the feedback buttons of one entry. *)
Definition feedbackTwice (index : Z) (first second : Feedback)
  : Effect (completion unit) :=
  handleFeedback index first ;; handleFeedback index second.

(** How often the Primary provider is called in a trace. *)
Definition primaryCalls (evs : list Event) : nat :=
  List.length (filter isPrimaryCall evs).

(** How many sends a run issues. *)
Definition sendsIssued (acts : list Action) : nat :=
  List.length (filter isSend acts).

(** The Backup requests of a trace. *)
Fixpoint fetches (evs : list Event) : list FetchRequest :=
  match evs with
  | [] => []
  | EvFetch req :: evs' => req :: fetches evs'
  | _ :: evs' => fetches evs'
  end.

Definition greetingMessage : Message :=
  msg model (lit "I can answer questions about Kunal instantly. Ask away.").

(** Sends are issued one at a time: at most one invocation is suspended;
    while none is, the turns of the transcript are closed; while one is, the
    transcript ends with its user message, and if it waits for the Primary
    provider, the transcript of its closure plus that message is the live
    transcript (feedback marks apart). *)
Definition orderly (sys : Sys) : Prop :=
  match inflight sys with
  | [] => turns_closed (map role (messages (ui sys))) = true
  | [(id, k)] =>
      (exists pre,
          map role (messages (ui sys)) = pre ++ [user]
          /\ turns_closed pre = true)
      /\ match k with
         | AwaitSendMessage ms u =>
             map turn (messages (ui sys)) = map turn (ms ++ [msg user u])
         | AwaitOpenRouter => True
         end
  | _ :: _ :: _ => False
  end.


(** ** Reading one send *)

(** The chat object the send has in hand after its self-healing block. *)
Definition chatAvailable (st : State) (w : Providers) : option Chat :=
  match chatClient st with
  | Some c => Some c
  | None =>
      match created w with
      | Normal c => Some c
      | Throw _ => None
      end
  end.

(** The send ends up calling [callOpenRouter]: Backup is already active, or
    the Primary attempt fails (no chat object, or [sendMessage] rejects). *)
Definition reachesBackup (st : State) (w : Providers) : Prop :=
  isBackupActive st = true
  \/ chatAvailable st w = None
  \/ exists e, answered w = Throw e.

(** [callOpenRouter] rejects. *)
Definition backupFails (w : Providers) : Prop :=
  exists e, callOpenRouter_settle (fetched w) = Throw e.

(** [data.choices?.[0]?.message?.content] for a [data] that can be read. *)
Definition contentOf (data : value) : value :=
  get_opt (get_opt (index0_opt (get_opt data (lit "choices"))) (lit "message"))
          (lit "content").

Definition userMessage (st : State) : Message := msg user (input st).

Definition glitchMessage : Message :=
  msg model (lit "System glitch. Both primary and backup lines are unstable.").

Definition keyMissingMessage : Message :=
  msg model (lit "Error: API Key missing. Please check configuration.").

(** [!process.env.API_KEY]. *)
Definition keyMissing : Prop :=
  API_KEY process_env = None \/ API_KEY process_env = Some [].

End NeoKunChat.

(** ** Further observations on the chat component *)

(** No invocation of [handleSendMessage] is suspended. *)
Definition idle (sys : Sys) : bool :=
  match inflight sys with
  | [] => true
  | _ :: _ => false
  end.

(** A provider event that goes through the chat object [c]: no constructor
    call, and [sendMessage] on [c] only. *)
Definition usesChat (c : Chat) (e : Event) : Prop :=
  match e with
  | EvCreateChat _ => False
  | EvSendMessage c' _ => c' = c
  | _ => True
  end.

Definition isUser (m : Message) : bool :=
  match role m with
  | user => true
  | model => false
  end.

Definition usersIn (ms : list Message) : nat := List.length (filter isUser ms).

Definition modelsIn (ms : list Message) : nat :=
  List.length (filter (fun m => negb (isUser m)) ms).

(** Three clicks in a row on the same feedback button. *)
Definition feedbackThrice (index : Z) (type : Feedback)
  : Effect (completion unit) :=
  handleFeedback index type ;; handleFeedback index type ;;
  handleFeedback index type.

(** Feedback on one entry, then on another. *)
Definition feedbackBoth (i : Z) (a : Feedback) (j : Z) (b : Feedback)
  : Effect (completion unit) :=
  handleFeedback i a ;; handleFeedback j b.

(** ** ThemeProvider and the theme toggle of Resume *)

(** What the provider sees of the browser.  [localStorage.getItem] is taken
    to return; [setItem] may throw (the source catches that). *)
Record Browser : Type := mkBrowser {
  stored_theme : option jsstring;   (* localStorage item 'site-theme' *)
  storage_writable : bool;          (* localStorage.setItem does not throw *)
  media : option bool;              (* no window.matchMedia, or .matches of
                                       (prefers-color-scheme: dark) *)
  media_events : bool;              (* the MediaQueryList has addEventListener *)
  dark_class : bool                 (* documentElement has class 'dark' *)
}.

Record ThemeState : Type := mkTheme {
  theme : jsstring;                 (* the state cell; any stored string *)
  browser : Browser
}.

(** [window.matchMedia && window.matchMedia(..).matches] as a condition. *)
Definition prefersDark (b : Browser) : bool :=
  match media b with
  | Some m => m
  | None => false
  end.

Definition systemTheme (b : Browser) : jsstring :=
  if prefersDark b then lit "dark" else lit "light".

(** [effective] of the second effect. *)
Definition effectiveTheme (t : jsstring) (b : Browser) : jsstring :=
  if jsstring_eqb t (lit "system") then systemTheme b else t.

(** The second effect: keep document and localStorage in sync. *)
Definition syncTheme (t : jsstring) (b : Browser) : Browser :=
  mkBrowser
    (if storage_writable b then Some t else stored_theme b)
    (storage_writable b) (media b) (media_events b)
    (jsstring_eqb (effectiveTheme t b) (lit "dark")).

(** The [setThemeState] call of the first effect, if it makes one. *)
Definition initialTheme (defaultTheme : jsstring) (b : Browser)
  : option jsstring :=
  match stored_theme b with
  | Some (c :: saved) => Some (c :: saved)
  | _ =>
      if jsstring_eqb defaultTheme (lit "system")
      then Some (systemTheme b)
      else None
  end.

(** [setThemeState(next)] from a render with theme [current]: an equal value
    causes no render; a new one renders and re-runs the second effect. *)
Definition setThemeState (current next : jsstring) (b : Browser) : ThemeState :=
  if jsstring_eqb next current then mkTheme current b
  else mkTheme next (syncTheme next b).

(** Mounting: first render with [defaultTheme], both effects in order, then
    the render the first effect asked for. *)
Definition mountThemeProvider (defaultTheme : jsstring) (b : Browser)
  : ThemeState :=
  let update := initialTheme defaultTheme b in
  let b1 := syncTheme defaultTheme b in
  match update with
  | Some t => setThemeState defaultTheme t b1
  | None => mkTheme defaultTheme b1
  end.

Definition setTheme (t : jsstring) (s : ThemeState) : ThemeState :=
  setThemeState (theme s) t (browser s).

(** [toggleTheme] of [Resume]. *)
Definition toggleTheme (s : ThemeState) : ThemeState :=
  let darkMode := jsstring_eqb (theme s) (lit "dark") in
  setTheme (if darkMode then lit "light" else lit "dark") s.

(** The system preference changes to [matches].  The listener, registered
    by the first effect only, still tests the theme of the first render. *)
Definition onPrefChange (defaultTheme : jsstring) (matches : bool)
  (s : ThemeState) : ThemeState :=
  let b := browser s in
  match media b with
  | None => s
  | Some _ =>
      mkTheme (theme s)
        (mkBrowser (stored_theme b) (storage_writable b) (Some matches)
           (media_events b)
           (if media_events b && jsstring_eqb defaultTheme (lit "system")
            then matches else dark_class b))
  end.

Inductive ThemeEvent : Type :=
| SetTheme (t : jsstring)
| ToggleTheme
| PrefChange (matches : bool).

Definition themeStep (defaultTheme : jsstring) (s : ThemeState) (e : ThemeEvent)
  : ThemeState :=
  match e with
  | SetTheme t => setTheme t s
  | ToggleTheme => toggleTheme s
  | PrefChange m => onPrefChange defaultTheme m s
  end.

Definition themeRun (defaultTheme : jsstring) (s : ThemeState)
  (es : list ThemeEvent) : ThemeState :=
  fold_left (themeStep defaultTheme) es s.

Definition isPrefChange (e : ThemeEvent) : bool :=
  match e with
  | PrefChange _ => true
  | _ => false
  end.

(** The document shows the theme in force. *)
Definition class_in_sync (s : ThemeState) : Prop :=
  dark_class (browser s)
  = jsstring_eqb (effectiveTheme (theme s) (browser s)) (lit "dark").

(** ** The status light of NavBar *)

Definition isDigit (c : N) : bool := ((48 <=? c) && (c <=? 57))%N.

(** [s.split(':')[0]]. *)
Fixpoint beforeColon (s : jsstring) : jsstring :=
  match s with
  | [] => []
  | c :: r => if (c =? 58)%N then [] else c :: beforeColon r
  end.

Fixpoint digitsValue (acc : Z) (s : jsstring) : Z :=
  match s with
  | [] => acc
  | c :: r =>
      if isDigit c then digitsValue (10 * acc + (Z.of_N c - 48)) r else acc
  end.

(** [parseInt(s, 10)]; [None] is NaN.  The value is the exact integer: the
    source only compares it with 0, 2, 9 and 23, and rounding to a double is
    monotone and leaves these four fixed. *)
Definition parseInt10 (s : jsstring) : option Z :=
  let t := trimStart s in
  let '(sign, d) :=
    match t with
    | 45%N :: r => ((-1)%Z, r)
    | 43%N :: r => (1%Z, r)
    | _ => (1%Z, t)
    end in
  match d with
  | c :: _ => if isDigit c then Some (sign * digitsValue 0 d)%Z else None
  | [] => None
  end.

Record NavState : Type := mkNav {
  time : jsstring;
  isBuilding : bool
}.

(** [updateTime] on the string the formatter returned. *)
Definition updateTime (timeString : jsstring) : NavState :=
  mkNav timeString
    match parseInt10 (beforeColon timeString) with
    | Some hour =>
        ((9 <=? hour) && (hour <=? 23) || (0 <=? hour) && (hour <? 2))%Z
    | None => false
    end.

(** A two-digit hour, a colon and whatever follows. *)
Definition clockString (tens units : N) (rest : jsstring) : jsstring :=
  (48 + tens)%N :: (48 + units)%N :: 58%N :: rest.

(** ** The category tabs of ProjectShowcase *)

Inductive Category : Type := Prototype | Research | Ops.

Inductive Filter : Type := All | Only (c : Category).

Definition Category_eqb (a b : Category) : bool :=
  match a, b with
  | Prototype, Prototype | Research, Research | Ops, Ops => true
  | _, _ => false
  end.

Record Project : Type := mkProject {
  title : jsstring;
  description : jsstring;
  tags : list jsstring;
  category : Category;
  link : option jsstring
}.

Definition projects : list Project :=
  [ mkProject (lit "Neo-Kun (This AI)")
      (lit "Adaptive AI agent featuring context-aware persona switching (Gen Z/Professional). Built with robust alignment against adversarial inputs and deep technical grounding in RLHF & Safety principles.")
      [lit "Gemini 2.5"; lit "Prompt Eng."; lit "React"] Prototype None;
    mkProject (lit "TaskBuff (AI Prototype)")
      (lit "AI-assisted micro-task platform with fully generated frontend, backend routing, and SQL schema.")
      [lit "Vercel v0"; lit "Supabase"; lit "React"] Prototype None;
    mkProject (lit "Policy-Aware Evaluator")
      (lit "Workflow for comparative LLM evaluation accounting for regional policy nuances in Hindi/Punjabi.")
      [lit "LLM"; lit "Safety"; lit "Multilingual"] Research None;
    mkProject (lit "Quantized Benchmarking")
      (lit "Benchmarked compact LLM variants for computational efficiency and prompt sensitivity.")
      [lit "Cloud Ops"; lit "Python"; lit "Inference"] Ops None ].

(** [filter === 'All' ? projects : projects.filter(p => p.category === filter)]. *)
Definition filtered (f : Filter) (ps : list Project) : list Project :=
  match f with
  | All => ps
  | Only c => filter (fun p => Category_eqb (category p) c) ps
  end.

(** ** Sample inputs *)

Definition sample_prompt : jsstring := lit "ROLE: You are Neo-Kun.".

Definition sample_href : jsstring := lit "https://example.org/".

Definition env_with_key : ProcessEnv :=
  mkEnv (Some (lit "primary-key")) (Some (lit "backup-key")).

Definition env_without_key : ProcessEnv :=
  mkEnv None (Some (lit "backup-key")).

Definition chat0 : Chat := ChatHandle 0.

(** The widget with [t] typed into the input box and [ms] on display. *)
Definition widget (ms : list Message) (t : string) (c : option Chat)
  (backup : bool) : Sys :=
  mkSys (mkState true ms (lit t) false false c backup) [] 0.

Definition network_down : exn := Error (lit "Failed to fetch").

Definition sample : Config := mkConfig sample_prompt env_with_key sample_href.

Definition sample_without_key : Config :=
  mkConfig sample_prompt env_without_key sample_href.

Definition hello_widget : Sys := widget [] "hello" None false.

Definition blank_widget : Sys := widget [greetingMessage] "   " None false.

(** A completion as the Backup endpoint returns it, with [t] as content. *)
Definition completionJson (t : value) : value :=
  Obj [ (lit "id", Str (lit "gen-1"));
        (lit "choices",
         Arr [ Obj [ (lit "message",
                      Obj [ (lit "role", Str (lit "assistant"));
                            (lit "content", t) ]) ] ]) ].

Definition pong_response : Response :=
  mkResponse true (lit "OK") (Normal (completionJson (Str (lit "pong")))).

Definition no_choices_response : Response :=
  mkResponse true (lit "OK") (Normal (Obj [(lit "id", Str (lit "gen-1"))])).

Definition all_fine : Providers :=
  mkProviders (Normal chat0) (Normal (Some (lit "pong"))) (Normal pong_response).

Definition both_down : Providers :=
  mkProviders (Normal chat0) (Throw network_down) (Throw network_down).

Definition primary_silent : Providers :=
  mkProviders (Normal chat0) (Normal None) (Normal pong_response).

Definition backup_silent : Providers :=
  mkProviders (Normal chat0) (Throw network_down) (Normal no_choices_response).

(** A transcript of one exchange, and the same with the reply marked "up". *)
Definition two_entries : State :=
  mkState true [msg user (lit "hi"); msg model (lit "yo")] [] false false
    (Some chat0) false.

Definition reply_marked_up : State :=
  mkState true [msg user (lit "hi"); mkMessage model (Str (lit "yo")) (Some up)]
    [] false false (Some chat0) false.

(** "a" is sent, then "b" while the first call is pending; the second reply
    arrives first. *)
Definition overlap_start : Sys := widget [] "a" None false.

Definition overlap_run : list Action :=
  [ Send (Normal chat0);
    Typed (lit "b");
    Send (Normal chat0);
    SendMessageSettled 1 (Normal (Some (lit "B")));
    SendMessageSettled 0 (Normal (Some (lit "A"))) ].



(** One send at a time: "a" fails over to Backup, then "b" is sent. *)
Definition failover_before : list Action :=
  [ Send (Normal chat0);
    SendMessageSettled 0 (Throw network_down) ].

Definition failover_after : list Action :=
  [ OpenRouterSettled 0 (Normal pong_response);
    Typed (lit "b");
    Send (Normal chat0);
    OpenRouterSettled 1 (Normal pong_response) ].

Definition or_default (r : option (Sys * list Event)) : Sys * list Event :=
  match r with
  | Some x => x
  | None => (initialSys, [])
  end.

Definition failover_mid : Sys * list Event :=
  Eval vm_compute in or_default (@run sample overlap_start failover_before).

Definition failover_end : Sys * list Event :=
  Eval vm_compute in or_default (@run sample (fst failover_mid) failover_after).

Definition failover_first : Sys * list Event :=
  Eval vm_compute in
    or_default (@run sample overlap_start [Send (Normal chat0)]).

Definition failover_last : Action := SendMessageSettled 0 (Throw network_down).


Definition sequential_end : Sys * list Event :=
  Eval vm_compute in
    or_default (@run sample overlap_start (failover_before ++ failover_after)).

(** The first send is pending and "b" has been typed. *)
Definition second_widget : Sys :=
  Eval vm_compute in
    fst (or_default (@run sample overlap_start
                       [Send (Normal chat0); Typed (lit "b")])).

Definition null_response : Response := mkResponse true (lit "OK") (Normal Null).

Definition overlap_end : Sys * list Event :=
  Eval vm_compute in or_default (@run sample overlap_start overlap_run).

(** From the state where "a" is pending and "b" typed: "b" is sent too and
    both calls are answered. *)
Definition second_run : list Action :=
  [ Send (Normal chat0);
    SendMessageSettled 1 (Normal (Some (lit "B")));
    SendMessageSettled 0 (Normal (Some (lit "A"))) ].

Definition second_end : Sys * list Event :=
  Eval vm_compute in or_default (@run sample second_widget second_run).

(** What a visitor without a configured key may do. *)
Definition keyless_run : list Action :=
  [ Toggle (Normal chat0);
    Send (Normal chat0);
    Thumb 0 up;
    Typed (lit "again");
    Send (Normal chat0);
    Toggle (Normal chat0);
    Greeting ].

Definition keyless_end : Sys * list Event :=
  Eval vm_compute in
    or_default (@run sample_without_key hello_widget keyless_run).

Definition client_run : list Action := failover_last :: failover_after.

Definition client_end : Sys * list Event :=
  Eval vm_compute in
    or_default (@run sample (fst failover_first) client_run).

Definition hello_sent : Sys * list Event :=
  Eval vm_compute in
    or_default (@step sample hello_widget (Send (Normal chat0))).

Definition primary_down_backup_pong : Providers :=
  mkProviders (Normal chat0) (Throw network_down) (Normal pong_response).

(** A browser that prefers dark and has "light" stored. *)
Definition light_stored : Browser :=
  mkBrowser (Some (lit "light")) true (Some true) true false.

Definition fresh_browser : Browser := mkBrowser None true (Some true) true false.

Definition theme_session : list ThemeEvent :=
  [ToggleTheme; ToggleTheme; ToggleTheme].

(** The SDK constructor throws on "a", Backup answers, "b" is typed. *)
Definition constructor_down_run : list Action :=
  [ Send (Throw network_down);
    OpenRouterSettled 0 (Normal pong_response);
    Typed (lit "b") ].

Definition constructor_down_mid : Sys * list Event :=
  Eval vm_compute in
    or_default (@run sample overlap_start constructor_down_run).

(** ** Properties *)

Section Properties.

Context {cfg : Config}.

Lemma trimStart_nil_iff (s : jsstring) :
  trimStart s = [] <-> forallb isWhiteSpace s = true.
Proof.
  induction s as [|c s IH]; simpl.
  - split; reflexivity.
  - destruct (isWhiteSpace c) eqn:Hc; simpl.
    + exact IH.
    + split; discriminate.
Qed.

Lemma trimStart_head (s : jsstring) c t :
  trimStart s = c :: t -> isWhiteSpace c = false.
Proof.
  induction s as [|d s IH]; simpl; [discriminate|].
  destruct (isWhiteSpace d) eqn:Hd; [exact IH|].
  intros H; injection H as -> _; exact Hd.
Qed.

(** [trim] leaves nothing exactly when every code unit is white space. *)
Lemma trim_nil_iff (s : jsstring) :
  trim s = [] <-> forallb isWhiteSpace s = true.
Proof.
  unfold trim, trimEnd. split.
  - intros H.
    destruct (trimStart s) as [|c t] eqn:Hs.
    + apply trimStart_nil_iff; exact Hs.
    + exfalso.
      assert (Hr : trimStart (rev (c :: t)) = []).
      { destruct (trimStart (rev (c :: t))) as [|x y] eqn:E; [reflexivity|].
        apply (f_equal (@List.length N)) in H. rewrite length_rev in H.
        simpl in H; discriminate. }
      apply trimStart_nil_iff in Hr.
      rewrite forallb_forall in Hr.
      assert (Hc : isWhiteSpace c = true).
      { apply Hr. rewrite <- in_rev. left; reflexivity. }
      rewrite (trimStart_head s c t Hs) in Hc; discriminate.
  - intros H. apply trimStart_nil_iff in H. rewrite H. reflexivity.
Qed.

Lemma sys_eta (sys : Sys) : mkSys (ui sys) (inflight sys) (nextId sys) = sys.
Proof. destruct sys; reflexivity. Qed.

Lemma state_eta (s : State) :
  mkState (isOpen s) (messages s) (input s) (isTyping s) (showNotification s)
    (chatClient s) (isBackupActive s) = s.
Proof. destruct s; reflexivity. Qed.

(** C9. A send whose input is empty after trimming does nothing: the state
    (transcript included) is what it was, no event is emitted (so no message
    is added and no provider is called), and no invocation stays suspended.
    This holds for the handler inside any interleaving and for the send run
    on its own. *)
Theorem empty_input_is_noop (sys : Sys) (c : completion Chat) (w : Providers) :
  trim (input (ui sys)) = [] ->
  step sys (Send c) = Some (sys, [])
  /\ send w (ui sys) = (Done (Normal tt), ui sys, []).
Proof.
  intros H.
  unfold step, send, bind, handleSendMessage.
  rewrite H. simpl. rewrite sys_eta. split; reflexivity.
Qed.

(** An input made of white space only is such an input. *)
Lemma white_space_only_is_noop (sys : Sys) (c : completion Chat) :
  forallb isWhiteSpace (input (ui sys)) = true ->
  step sys (Send c) = Some (sys, []).
Proof.
  intros H. apply trim_nil_iff in H.
  unfold step, handleSendMessage. rewrite H. simpl.
  rewrite sys_eta. reflexivity.
Qed.

(** *** [handleFeedback] *)

Lemma nth_error_mapi_from {A B} (f : A -> nat -> B) (l : list A) :
  forall k i,
    nth_error (mapi_from f k l) i
    = option_map (fun x => f x (k + i)) (nth_error l i).
Proof.
  induction l as [|x l IH]; intros k i.
  - destruct i; reflexivity.
  - destruct i as [|i]; simpl.
    + rewrite Nat.add_0_r. reflexivity.
    + rewrite IH. rewrite Nat.add_succ_r. reflexivity.
Qed.

Lemma nth_error_mapi {A B} (f : A -> nat -> B) (l : list A) (i : nat) :
  nth_error (mapi f l) i = option_map (fun x => f x i) (nth_error l i).
Proof. unfold mapi. rewrite nth_error_mapi_from. reflexivity. Qed.

Lemma length_mapi_from {A B} (f : A -> nat -> B) (l : list A) :
  forall k, List.length (mapi_from f k l) = List.length l.
Proof. induction l as [|x l IH]; intros k; simpl; [|rewrite IH]; reflexivity. Qed.

Lemma mapi_from_id {A} (f : A -> nat -> A) (l : list A) :
  forall k,
    (forall x i, nth_error l i = Some x -> f x (k + i) = x) ->
    mapi_from f k l = l.
Proof.
  induction l as [|x l IH]; intros k H; simpl; [reflexivity|].
  f_equal.
  - specialize (H x 0 eq_refl). rewrite Nat.add_0_r in H. exact H.
  - apply IH. intros y i Hy. specialize (H y (S i) Hy).
    rewrite Nat.add_succ_r in H. exact H.
Qed.

Lemma handleFeedback_eq (index : Z) (type : Feedback) (st : State) :
  handleFeedback index type st
  = (Normal tt,
     mkState (isOpen st) (marked index type (messages st)) (input st)
       (isTyping st) (showNotification st) (chatClient st) (isBackupActive st),
     []).
Proof. reflexivity. Qed.

Lemma marked_out_of_range (index : Z) (type : Feedback) (prev : list Message) :
  (index < 0 \/ Z.of_nat (List.length prev) <= index)%Z ->
  marked index type prev = prev.
Proof.
  intros H. unfold marked, mapi. apply mapi_from_id.
  intros x i Hx. simpl.
  assert (Hi : i < List.length prev) by (apply nth_error_Some; congruence).
  destruct (Z.eqb_spec (Z.of_nat i) index); [lia | reflexivity].
Qed.

Lemma nth_error_marked (index : Z) (type : Feedback) (prev : list Message) i :
  nth_error (marked index type prev) i
  = if (Z.of_nat i =? index)%Z
    then option_map
           (fun m => mkMessage (role m) (text m) (toggleFeedback (feedback m) type))
           (nth_error prev i)
    else nth_error prev i.
Proof.
  unfold marked. rewrite nth_error_mapi.
  destruct (Z.of_nat i =? index)%Z; [reflexivity|].
  destruct (nth_error prev i); reflexivity.
Qed.

(** C7 (as the code has it). [handleFeedback] validates nothing and never
    raises: it returns normally for every index and value; with an index
    outside the transcript the state is left exactly as it was; with an index
    inside, the feedback of that entry is toggled whatever its role, and
    every other entry and every other state cell is untouched. *)
Theorem handleFeedback_never_rejects (index : Z) (type : Feedback) (st : State) :
  exists st',
    handleFeedback index type st = (Normal tt, st', [])
    /\ ((index < 0 \/ Z.of_nat (List.length (messages st)) <= index)%Z -> st' = st)
    /\ List.length (messages st') = List.length (messages st)
    /\ (forall i m, nth_error (messages st) i = Some m ->
          nth_error (messages st') i
          = Some (if (Z.of_nat i =? index)%Z
                  then mkMessage (role m) (text m)
                         (toggleFeedback (feedback m) type)
                  else m))
    /\ (isOpen st', input st', isTyping st', showNotification st',
        chatClient st', isBackupActive st')
       = (isOpen st, input st, isTyping st, showNotification st,
          chatClient st, isBackupActive st).
Proof.
  eexists. split; [apply handleFeedback_eq|]. simpl.
  repeat split.
  - intros H. rewrite marked_out_of_range by exact H. apply state_eta.
  - unfold marked, mapi. apply length_mapi_from.
  - intros i m Hm. rewrite nth_error_marked, Hm.
    destruct (Z.of_nat i =? index)%Z; reflexivity.
Qed.

Lemma toggleFeedback_twice (f : option Feedback) (v : Feedback) :
  toggleFeedback (toggleFeedback f v) v
  = match f with
    | Some g => if Feedback_eqb g v then Some v else None
    | None => None
    end.
Proof. destruct f as [[|]|], v; reflexivity. Qed.

Lemma toggleFeedback_up_down (f : option Feedback) :
  toggleFeedback (toggleFeedback f up) down = Some down.
Proof. destruct f as [[|]|]; reflexivity. Qed.

(** C8 (as the code has it). For an index inside the transcript: selecting
    the same value [v] twice leaves the entry cleared when its feedback was
    not [v] to begin with, and leaves it at [v] when it was (each click
    toggles); selecting "up" then "down" always leaves "down".  The field
    holds at most one value, and role and text are never changed. *)
Theorem feedback_toggle_law (st : State) (i : nat) (m : Message) (v : Feedback) :
  nth_error (messages st) i = Some m ->
  (exists m2,
      nth_error (messages (snd (fst (feedbackTwice (Z.of_nat i) v v st)))) i
      = Some m2
      /\ turn m2 = turn m
      /\ (feedback m <> Some v -> feedback m2 = None)
      /\ (feedback m = Some v -> feedback m2 = Some v))
  /\ (exists m2,
      nth_error (messages (snd (fst (feedbackTwice (Z.of_nat i) up down st)))) i
      = Some m2
      /\ turn m2 = turn m
      /\ feedback m2 = Some down).
Proof.
  intros Hm. unfold feedbackTwice, bind.
  rewrite !handleFeedback_eq. simpl.
  rewrite !nth_error_marked, Z.eqb_refl, Hm. simpl.
  split; eexists; (split; [reflexivity|]); simpl.
  - rewrite toggleFeedback_twice. split; [reflexivity|].
    destruct (feedback m) as [g|]; split; intros H; try congruence.
    + destruct g, v; simpl; congruence.
    + injection H as ->. destruct v; reflexivity.
  - rewrite toggleFeedback_up_down. split; reflexivity.
Qed.

(** *** Unfolding the handlers *)

Ltac unfold_effects :=
  unfold send, handleSendMessage, resumeSendMessage, resumeOpenRouter,
    fallbackToOpenRouter, toggleChat, initChat, greetingTimeout,
    appendMessage, bind, ret, emit, setMessages, setInput, setIsTyping,
    setIsOpen, setShowNotification, setChatClient, setIsBackupActive in *.

Ltac case_scrutinee :=
  match goal with
  | |- context [match ?x with _ => _ end] =>
      lazymatch x with
      | context [match _ with _ => _ end] => fail
      | _ => destruct x eqn:?
      end
  | H : context [match ?x with _ => _ end] |- _ =>
      lazymatch x with
      | context [match _ with _ => _ end] => fail
      | _ => destruct x eqn:?
      end
  end.

Ltac crunch := unfold_effects; repeat (cbn in *; try case_scrutinee).

Lemma map_turn_marked (index : Z) (type : Feedback) (prev : list Message) :
  map turn (marked index type prev) = map turn prev.
Proof.
  unfold marked, mapi. generalize 0.
  induction prev as [|m prev IH]; intros k; simpl; [reflexivity|].
  rewrite IH. destruct (Z.of_nat k =? index)%Z; reflexivity.
Qed.

(** A step only ever adds to the transcript, and what it adds is what its
    trace reports; feedback marks apart, nothing is rewritten or removed. *)
Lemma step_transcript (sys sys' : Sys) (a : Action) (evs : list Event) :
  step sys a = Some (sys', evs) ->
  map turn (messages (ui sys'))
  = map turn (messages (ui sys)) ++ map turn (added evs).
Proof.
  destruct a; unfold step; try rewrite handleFeedback_eq.
  all: crunch; intros H; inversion H; subst; clear H; cbn.
  all: rewrite ?map_turn_marked, ?map_app, ?app_nil_r; try reflexivity.
Qed.

Lemma run_transcript (acts : list Action) :
  forall sys sys' evs,
    run sys acts = Some (sys', evs) ->
    map turn (messages (ui sys'))
    = map turn (messages (ui sys)) ++ map turn (added evs).
Proof.
  induction acts as [|a acts IH]; intros sys sys' evs; simpl.
  - intros H; inversion H; subst. simpl. rewrite app_nil_r. reflexivity.
  - destruct (step sys a) as [[sys1 evs1]|] eqn:Hs; [|discriminate].
    destruct (run sys1 acts) as [[sys2 evs2]|] eqn:Hr; [|discriminate].
    intros H; inversion H; subst.
    rewrite (IH _ _ _ Hr), (step_transcript _ _ _ _ Hs).
    assert (Ha : forall e1 e2, added (e1 ++ e2) = added e1 ++ added e2).
    { induction e1 as [|[] e1 IHe]; intros e2; simpl; rewrite ?IHe; reflexivity. }
    rewrite Ha, map_app, app_assoc. reflexivity.
Qed.

(** *** The user message *)

(** C1 (as the code has it). When the Primary credential is configured and
    the input is not blank, the first thing the handler does is to add the
    user message: it heads the trace of the step, ahead of every provider
    call, and sits at the end of the transcript.  Whatever happens afterwards
    (either provider failing included) the entry stays at its position with
    its role and text. *)
Theorem user_message_appended_first (sys : Sys) (c : completion Chat)
  (key : jsstring) :
  API_KEY process_env = Some key ->
  key <> [] ->
  trim (input (ui sys)) <> [] ->
  exists sys1 rest,
    step sys (Send c) = Some (sys1, EvMessage (msg user (input (ui sys))) :: rest)
    /\ added rest = []
    /\ messages (ui sys1) = messages (ui sys) ++ [msg user (input (ui sys))]
    /\ forall acts sys2 evs2,
         run sys1 acts = Some (sys2, evs2) ->
         exists m,
           nth_error (messages (ui sys2)) (List.length (messages (ui sys)))
           = Some m
           /\ role m = user /\ text m = Str (input (ui sys)).
Proof.
  intros Hkey Hk Hin.
  assert (Hstep : exists sys1 rest,
             step sys (Send c)
             = Some (sys1, EvMessage (msg user (input (ui sys))) :: rest)
             /\ added rest = []
             /\ messages (ui sys1)
                = messages (ui sys) ++ [msg user (input (ui sys))]).
  { unfold step, handleSendMessage. rewrite Hkey.
    destruct (trim (input (ui sys))) as [|x t] eqn:Ht; [congruence|].
    destruct key as [|k0 key']; [congruence|].
    crunch; do 2 eexists; (split; [reflexivity|]); split; reflexivity. }
  destruct Hstep as (sys1 & rest & Hs & Hadd & Hm).
  exists sys1, rest. repeat split; try assumption.
  intros acts sys2 evs2 Hr.
  pose proof (run_transcript _ _ _ _ Hr) as Ht.
  rewrite Hm, map_app in Ht. simpl in Ht.
  assert (Hn : nth_error (map turn (messages (ui sys2)))
                 (List.length (messages (ui sys)))
               = Some (user, Str (input (ui sys)))).
  { rewrite Ht, <- app_assoc.
    rewrite nth_error_app2 by (rewrite length_map; lia).
    rewrite length_map, Nat.sub_diag. reflexivity. }
  rewrite nth_error_map in Hn.
  destruct (nth_error (messages (ui sys2)) (List.length (messages (ui sys))))
    as [m|]; [|discriminate].
  exists m. split; [reflexivity|].
  simpl in Hn. unfold turn in Hn. inversion Hn. split; reflexivity.
Qed.

(** *** One send, path by path *)

Lemma send_key_missing (st : State) (w : Providers) :
  keyMissing ->
  trim (input st) <> [] ->
  send w st
  = (Done (Normal tt),
     mkState (isOpen st) (messages st ++ [keyMissingMessage]) (input st)
       (isTyping st) (showNotification st) (chatClient st) (isBackupActive st),
     [EvMessage keyMissingMessage]).
Proof.
  intros Hk Hin. unfold send, handleSendMessage.
  destruct (trim (input st)) eqn:Ht; [congruence|].
  destruct Hk as [-> | ->]; reflexivity.
Qed.

(** C6 (as the code has it). With the Primary credential absent (unset or
    empty) and a non-blank input, the send calls no provider at all (no
    constructor, no [sendMessage], no [fetch]); it adds one assistant entry
    with the fixed text "Error: API Key missing. Please check
    configuration." and returns normally.  Nothing else changes: the user
    message is not recorded and the input box keeps its text. *)
Theorem missing_credential_notice (sys : Sys) (c : completion Chat)
  (w : Providers) :
  keyMissing ->
  trim (input (ui sys)) <> [] ->
  let st' :=
    mkState (isOpen (ui sys)) (messages (ui sys) ++ [keyMissingMessage])
      (input (ui sys)) (isTyping (ui sys)) (showNotification (ui sys))
      (chatClient (ui sys)) (isBackupActive (ui sys)) in
  step sys (Send c)
  = Some (mkSys st' (inflight sys) (nextId sys), [EvMessage keyMissingMessage])
  /\ send w (ui sys) = (Done (Normal tt), st', [EvMessage keyMissingMessage]).
Proof.
  intros Hk Hin st'. split; [|apply send_key_missing; assumption].
  unfold step, handleSendMessage.
  destruct (trim (input (ui sys))) eqn:Ht; [congruence|].
  destruct Hk as [-> | ->]; reflexivity.
Qed.

(** The reply entry of a settled [sendMessage]: [result.text || ""]. *)
Lemma primary_reply_text (r : option jsstring) :
  or_else (match r with Some t => Str t | None => Undefined end) (Str [])
  = Str (match r with Some t => t | None => [] end).
Proof. destruct r as [[|x t]|]; reflexivity. Qed.

(** What one send adds to the transcript, on every path: nothing (blank
    input); the credential notice (key missing); the user message and the
    text of the provider that answered; or the user message and the glitch
    notice, which needs [callOpenRouter] to have been reached and to have
    rejected.  On every path the handler returns normally. *)
Lemma send_adds (st : State) (w : Providers) :
  exists st' evs,
    send w st = (Done (Normal tt), st', evs)
    /\ messages st' = messages st ++ added evs
    /\ (added evs = []
        \/ (keyMissing /\ added evs = [keyMissingMessage])
        \/ (exists t,
              added evs = [userMessage st; mkMessage model t None]
              /\ ((isBackupActive st = false
                   /\ exists r, answered w = Normal r
                        /\ t = Str (match r with Some x => x | None => [] end))
                  \/ (reachesBackup st w
                      /\ callOpenRouter_settle (fetched w) = Normal t)))
        \/ (reachesBackup st w /\ backupFails w
            /\ added evs = [userMessage st; glitchMessage])).
Proof.
  unfold send, handleSendMessage, keyMissing, reachesBackup, backupFails,
    chatAvailable.
  destruct (trim (input st)) as [|x0 t0] eqn:Ht.
  { do 2 eexists. split; [reflexivity|]. simpl.
    rewrite app_nil_r. split; [reflexivity|]. left; reflexivity. }
  destruct (API_KEY process_env) as [[|k0 key]|] eqn:Hkey.
  1, 3: do 2 eexists; (split; [reflexivity|]); simpl;
        split; [reflexivity|]; right; left; split; [auto | reflexivity].
  unfold resumeSendMessage, resumeOpenRouter, fallbackToOpenRouter.
  destruct (chatClient st) as [ch|] eqn:Hc;
    [|destruct (created w) as [ch|e0] eqn:Hcr];
    (destruct (isBackupActive st) eqn:Hb;
     [|try destruct (answered w) as [r|e1] eqn:Ha]);
    destruct (callOpenRouter_settle (fetched w)) as [t|e2] eqn:Hf;
    cbn; rewrite ?Hf; cbn; rewrite ?primary_reply_text;
    do 2 eexists; (split; [reflexivity|]); cbn;
    (split; [rewrite <- ?app_assoc; reflexivity|]); right; right.
  all: first
    [ left; eexists; split; [reflexivity|]; right; split;
      [first [left; reflexivity | right; left; reflexivity
             | right; right; eexists; reflexivity] | reflexivity]
    | left; eexists; split; [reflexivity|]; left; split; [reflexivity|];
      eexists; split; reflexivity
    | right; split;
      [first [left; reflexivity | right; left; reflexivity
             | right; right; eexists; reflexivity]
      | split; [eexists; reflexivity | reflexivity]] ].
Qed.

Lemma send_double_failure (st : State) (w : Providers) (key : jsstring) :
  API_KEY process_env = Some key ->
  key <> [] ->
  trim (input st) <> [] ->
  reachesBackup st w ->
  backupFails w ->
  exists st' evs,
    send w st = (Done (Normal tt), st', evs)
    /\ added evs = [userMessage st; glitchMessage]
    /\ messages st' = messages st ++ [userMessage st; glitchMessage]
    /\ isBackupActive st' = true
    /\ isTyping st' = false.
Proof.
  intros Hkey Hk Hin Hb [e Hf].
  unfold send, handleSendMessage, reachesBackup, chatAvailable in *.
  rewrite Hkey.
  destruct (trim (input st)) as [|x0 t0] eqn:Ht; [congruence|].
  destruct key as [|k0 key']; [congruence|].
  unfold resumeSendMessage, resumeOpenRouter, fallbackToOpenRouter.
  destruct (chatClient st) as [ch|] eqn:Hc;
    [|destruct (created w) as [ch|e0] eqn:Hcr];
    (destruct (isBackupActive st) eqn:Hba;
     [|try destruct (answered w) as [r|e1] eqn:Ha]);
    cbn; rewrite ?Hf; cbn;
    try (exfalso; destruct Hb as [Hb|[Hb|[e' Hb]]]; discriminate).
  all: do 2 eexists; (split; [reflexivity|]); cbn;
       rewrite <- ?app_assoc; repeat split; reflexivity.
Qed.

(** C3 (as the code has it). When the send reaches the Backup call (Primary
    failed this turn, or Backup was already active) and that call fails too,
    the transcript grows by exactly two entries: the user message and one
    assistant entry with the fixed text "System glitch. Both primary and
    backup lines are unstable."; the mode is Backup and the typing flag is
    cleared.  The handler returns normally here as on every other path: it
    hands no result to its caller.  The glitch notice is added on this path
    only, and the one other fixed-text assistant entry a send can add is the
    credential notice of the missing-key guard. *)
Theorem double_failure_adds_one_notice (st : State) (w : Providers) :
  (forall key,
      API_KEY process_env = Some key ->
      key <> [] ->
      trim (input st) <> [] ->
      reachesBackup st w ->
      backupFails w ->
      exists st' evs,
        send w st = (Done (Normal tt), st', evs)
        /\ added evs = [userMessage st; glitchMessage]
        /\ messages st' = messages st ++ [userMessage st; glitchMessage]
        /\ List.length (messages st') = 2 + List.length (messages st)
        /\ isBackupActive st' = true
        /\ isTyping st' = false)
  /\ (exists st' evs,
        send w st = (Done (Normal tt), st', evs)
        /\ messages st' = messages st ++ added evs
        /\ (added evs = []
            \/ (keyMissing /\ added evs = [keyMissingMessage])
            \/ (exists t,
                  added evs = [userMessage st; mkMessage model t None]
                  /\ ((isBackupActive st = false
                       /\ exists r, answered w = Normal r
                            /\ t = Str (match r with Some x => x | None => [] end))
                      \/ (reachesBackup st w
                          /\ callOpenRouter_settle (fetched w) = Normal t)))
            \/ (reachesBackup st w /\ backupFails w
                /\ added evs = [userMessage st; glitchMessage]))).
Proof.
  split; [|apply send_adds].
  intros key Hkey Hk Hin Hb Hf.
  destruct (send_double_failure st w key Hkey Hk Hin Hb Hf)
    as (st' & evs & Hs & Ha & Hm & Hba & Hty).
  exists st', evs. repeat split; try assumption.
  rewrite Hm, length_app. simpl. lia.
Qed.

(** C10. A provider that resolves without text makes the turn a success
    with an empty reply.  If [sendMessage] resolves and [result.text] is
    undefined, or if the Backup response is ok and its JSON (a value that can
    be read, i.e. not null) has no [choices[0].message.content], the send
    adds the user message and an assistant entry whose text is the empty
    string, returns normally and adds no glitch notice.  In the Primary case
    the mode stays Primary and no Backup request is made. *)
Theorem empty_reply_is_success (st : State) (w : Providers) (key : jsstring) :
  API_KEY process_env = Some key ->
  key <> [] ->
  trim (input st) <> [] ->
  (isBackupActive st = false ->
   chatAvailable st w <> None ->
   answered w = Normal None ->
   exists st' evs,
     send w st = (Done (Normal tt), st', evs)
     /\ messages st' = messages st ++ [userMessage st; msg model []]
     /\ added evs = [userMessage st; msg model []]
     /\ isBackupActive st' = false
     /\ (forall req, ~ In (EvFetch req) evs))
  /\ (reachesBackup st w ->
      forall resp data,
        fetched w = Normal resp ->
        ok resp = true ->
        json resp = Normal data ->
        data <> Null -> data <> Undefined ->
        contentOf data = Undefined ->
        exists st' evs,
          send w st = (Done (Normal tt), st', evs)
          /\ messages st' = messages st ++ [userMessage st; msg model []]
          /\ added evs = [userMessage st; msg model []]).
Proof.
  intros Hkey Hk Hin.
  unfold send, handleSendMessage, reachesBackup, chatAvailable.
  rewrite Hkey.
  destruct (trim (input st)) as [|x0 t0] eqn:Ht; [congruence|].
  destruct key as [|k0 key']; [congruence|].
  unfold resumeSendMessage, resumeOpenRouter, fallbackToOpenRouter.
  split.
  - intros Hba Hav Ha. rewrite Hba, Ha.
    destruct (chatClient st) as [ch|] eqn:Hc;
      [|destruct (created w) as [ch|e0] eqn:Hcr; [|congruence]];
      cbn; do 2 eexists; (split; [reflexivity|]); cbn;
      rewrite <- ?app_assoc; repeat split; try reflexivity; try assumption;
      intros req H; cbn in H; intuition discriminate.
  - intros Hb resp data Hf Hok Hj Hn Hu Hcont.
    assert (Hset : callOpenRouter_settle (fetched w) = Normal (Str [])).
    { unfold callOpenRouter_settle. rewrite Hf, Hok, Hj. simpl.
      unfold contentOf in Hcont.
      destruct data; try congruence; simpl in *; rewrite ?Hcont; reflexivity. }
    destruct (chatClient st) as [ch|] eqn:Hc;
      [|destruct (created w) as [ch|e0] eqn:Hcr];
      (destruct (isBackupActive st) eqn:Hba;
       [|try destruct (answered w) as [r|e1] eqn:Ha]);
      cbn; rewrite ?Hset; cbn;
      try (exfalso; destruct Hb as [Hb|[Hb|[e' Hb]]]; discriminate).
    all: do 2 eexists; (split; [reflexivity|]); cbn;
         rewrite <- ?app_assoc; repeat split; reflexivity.
Qed.

(** *** [send] is a run of the component in which nothing interleaves *)

Lemma resumeOpenRouter_done (r : completion Response) (st : State) :
  exists st' evs, resumeOpenRouter r st = (Done (Normal tt), st', evs).
Proof.
  unfold resumeOpenRouter. destruct (callOpenRouter_settle r);
    do 2 eexists; reflexivity.
Qed.

Lemma resumeSendMessage_next (ms : list Message) (u : jsstring)
  (r : completion (option jsstring)) (st : State) :
  exists st' evs,
    resumeSendMessage ms u r st = (Done (Normal tt), st', evs)
    \/ resumeSendMessage ms u r st = (Await AwaitOpenRouter, st', evs).
Proof.
  unfold resumeSendMessage. destruct r; do 2 eexists;
    [left | right]; reflexivity.
Qed.

Lemma step_settle_primary_alone (st : State) (id n : nat)
  (ms : list Message) (u : jsstring) (r : completion (option jsstring)) :
  step (mkSys st [(id, AwaitSendMessage ms u)] n) (SendMessageSettled id r)
  = let '(o, st', evs) := resumeSendMessage ms u r st in
    Some (mkSys st' (park id o []) n, evs).
Proof. unfold step. simpl. rewrite Nat.eqb_refl. reflexivity. Qed.

Lemma step_settle_backup_alone (st : State) (id n : nat)
  (r : completion Response) :
  step (mkSys st [(id, AwaitOpenRouter)] n) (OpenRouterSettled id r)
  = let '(o, st', evs) := resumeOpenRouter r st in
    Some (mkSys st' (park id o []) n, evs).
Proof. unfold step. simpl. rewrite Nat.eqb_refl. reflexivity. Qed.

Lemma run_cons (sys : Sys) (a : Action) (acts : list Action) :
  run sys (a :: acts)
  = match step sys a with
    | None => None
    | Some (sys1, evs1) =>
        match run sys1 acts with
        | None => None
        | Some (sys2, evs2) => Some (sys2, evs1 ++ evs2)
        end
    end.
Proof. reflexivity. Qed.

(** A send run on its own is the run of the component made of the send
    event and the settlements of the calls it makes, with no other event in
    between: same final state, same trace, nothing left suspended. *)
Lemma send_is_an_uninterrupted_run (sys : Sys) (w : Providers) :
  inflight sys = [] ->
  exists acts sys',
    run sys acts = Some (sys', snd (send w (ui sys)))
    /\ ui sys' = snd (fst (send w (ui sys)))
    /\ fst (fst (send w (ui sys))) = Done (Normal tt)
    /\ inflight sys' = []
    /\ incl acts [ Send (created w);
                   SendMessageSettled (nextId sys) (answered w);
                   OpenRouterSettled (nextId sys) (fetched w) ].
Proof.
  intros Hi. destruct sys as [st fl n]. simpl in Hi. subst fl. simpl.
  unfold send, bind.
  destruct (handleSendMessage st (created w) st) as [[o1 st1] e1] eqn:H1.
  assert (Hs1 : step (mkSys st [] n) (Send (created w))
                = Some (mkSys st1 (park n o1 []) (fresh o1 n), e1)).
  { unfold step. simpl. rewrite H1. reflexivity. }
  destruct o1 as [c | [ms u | ]].
  - (* returned at once *)
    assert (c = Normal tt) as ->.
    { revert H1. crunch; intros H; inversion H; reflexivity. }
    exists [Send (created w)]. eexists. rewrite run_cons, Hs1. simpl.
    rewrite !app_nil_r. repeat split.
    intros a [<- | []]. left; reflexivity.
  - (* parked on the Primary provider *)
    destruct (resumeSendMessage_next ms u (answered w) st1)
      as (st2 & e2 & [H2 | H2]); rewrite H2.
    + exists [Send (created w); SendMessageSettled n (answered w)]. eexists.
      rewrite run_cons, Hs1. simpl park.
      rewrite run_cons, step_settle_primary_alone, H2. simpl.
      rewrite !app_nil_r. repeat split.
      intros a [<- | [<- | []]]; simpl; auto.
    + destruct (resumeOpenRouter_done (fetched w) st2) as (st3 & e3 & H3).
      rewrite H3.
      exists [ Send (created w); SendMessageSettled n (answered w);
               OpenRouterSettled n (fetched w) ]. eexists.
      rewrite run_cons, Hs1. simpl park.
      rewrite run_cons, step_settle_primary_alone, H2. simpl park.
      rewrite run_cons, step_settle_backup_alone, H3. simpl.
      rewrite !app_nil_r. repeat split.
      apply incl_refl.
  - (* parked on the Backup provider *)
    destruct (resumeOpenRouter_done (fetched w) st1) as (st3 & e3 & H3).
    simpl. rewrite H3.
    exists [Send (created w); OpenRouterSettled n (fetched w)]. eexists.
    rewrite run_cons, Hs1. simpl park.
    rewrite run_cons, step_settle_backup_alone, H3. simpl.
    rewrite !app_nil_r. repeat split.
    intros a [<- | [<- | []]]; simpl; auto.
Qed.

(** *** Failover *)

Lemma step_backup_sticky (sys sys' : Sys) (a : Action) (evs : list Event) :
  step sys a = Some (sys', evs) ->
  isBackupActive (ui sys) = true ->
  isBackupActive (ui sys') = true.
Proof.
  destruct a; unfold step; try rewrite handleFeedback_eq.
  all: crunch; intros H; inversion H; subst; clear H; cbn; auto.
Qed.

Lemma step_primary_calls (sys sys' : Sys) (a : Action) (evs : list Event) :
  step sys a = Some (sys', evs) ->
  primaryCalls evs
  <= (if isSend a && negb (isBackupActive (ui sys)) then 1 else 0).
Proof.
  unfold primaryCalls.
  destruct a; unfold step; try rewrite handleFeedback_eq.
  all: crunch; intros H; inversion H; subst; clear H; cbn; auto.
Qed.

Lemma primaryCalls_app (e1 e2 : list Event) :
  primaryCalls (e1 ++ e2) = primaryCalls e1 + primaryCalls e2.
Proof. unfold primaryCalls. rewrite filter_app, length_app. reflexivity. Qed.

Lemma primaryCalls_zero (evs : list Event) :
  primaryCalls evs = 0 -> forall e, In e evs -> isPrimaryCall e = false.
Proof.
  unfold primaryCalls. intros H e He.
  destruct (isPrimaryCall e) eqn:Hp; [|reflexivity].
  assert (Hin : In e (filter isPrimaryCall evs)) by (apply filter_In; auto).
  destruct (filter isPrimaryCall evs); [contradiction | discriminate].
Qed.

Lemma run_backup_sticky (acts : list Action) :
  forall sys sys' evs,
    run sys acts = Some (sys', evs) ->
    isBackupActive (ui sys) = true ->
    isBackupActive (ui sys') = true /\ primaryCalls evs = 0.
Proof.
  induction acts as [|a acts IH]; intros sys sys' evs; simpl.
  - intros H Hb; inversion H; subst. split; [assumption | reflexivity].
  - destruct (step sys a) as [[sys1 evs1]|] eqn:Hs; [|discriminate].
    destruct (run sys1 acts) as [[sys2 evs2]|] eqn:Hr; [|discriminate].
    intros H Hb; inversion H; subst.
    pose proof (step_backup_sticky _ _ _ _ Hs Hb) as Hb1.
    pose proof (step_primary_calls _ _ _ _ Hs) as Hc.
    rewrite Hb, andb_false_r in Hc.
    destruct (IH _ _ _ Hr Hb1) as [Hb2 Hc2].
    split; [assumption|]. rewrite primaryCalls_app. lia.
Qed.

Lemma run_primary_calls (acts : list Action) :
  forall sys sys' evs,
    run sys acts = Some (sys', evs) ->
    primaryCalls evs <= sendsIssued acts.
Proof.
  unfold sendsIssued.
  induction acts as [|a acts IH]; intros sys sys' evs; simpl.
  - intros H; inversion H; subst. reflexivity.
  - destruct (step sys a) as [[sys1 evs1]|] eqn:Hs; [|discriminate].
    destruct (run sys1 acts) as [[sys2 evs2]|] eqn:Hr; [|discriminate].
    intros H; inversion H; subst.
    pose proof (step_primary_calls _ _ _ _ Hs) as Hc.
    pose proof (IH _ _ _ Hr) as Hc2.
    rewrite primaryCalls_app.
    destruct (isSend a); simpl in *;
      [destruct (negb (isBackupActive (ui sys)))|]; simpl in *; lia.
Qed.

(** C2 (as the code has it). Failover is sticky.  A rejected
    [sendMessage], and a send that cannot get a chat object, both switch the
    mode to Backup and go on to the Backup request in the same turn.  Once
    the mode is Backup it stays Backup through every later event of the
    session; no later event calls [sendMessage]; and over the whole session
    the number of [sendMessage] calls is at most the number of sends issued
    before the mode became Backup.  A later send with a non-blank input
    issues the Backup request in its own first segment, but not always
    directly: its self-healing block comes before the mode test, so when the
    component holds no chat object the send first runs the Primary SDK
    constructor, and only when it holds one does it go straight to the
    Backup request.  The trace of such a send is exactly the user message,
    the constructor call if there is no chat object, and the Backup
    request. *)
Theorem sticky_failover (sys0 sys1 sys2 : Sys) (before after : list Action)
  (evs1 evs2 : list Event) :
  run sys0 before = Some (sys1, evs1) ->
  isBackupActive (ui sys1) = true ->
  run sys1 after = Some (sys2, evs2) ->
  isBackupActive (ui sys2) = true
  /\ (forall e, In e evs2 -> isPrimaryCall e = false)
  /\ primaryCalls (evs1 ++ evs2) <= sendsIssued before
  /\ (forall c key sys3 evs3,
        API_KEY process_env = Some key -> key <> [] ->
        trim (input (ui sys2)) <> [] ->
        step sys2 (Send c) = Some (sys3, evs3) ->
        primaryCalls evs3 = 0
        /\ In (EvFetch (callOpenRouter_request
                          (messages (ui sys2) ++ [userMessage (ui sys2)])))
              evs3
        /\ evs3
           = EvMessage (userMessage (ui sys2))
               :: match chatClient (ui sys2) with
                  | Some _ => []
                  | None => [EvCreateChat key]
                  end
               ++ [EvFetch (callOpenRouter_request
                              (messages (ui sys2) ++ [userMessage (ui sys2)]))])
  /\ (forall sys id e sys' evs,
        step sys (SendMessageSettled id (Throw e)) = Some (sys', evs) ->
        isBackupActive (ui sys') = true
        /\ exists req, evs = [EvFetch req])
  /\ (forall sys e key sys' evs,
        API_KEY process_env = Some key -> key <> [] ->
        trim (input (ui sys)) <> [] ->
        chatClient (ui sys) = None ->
        step sys (Send (Throw e)) = Some (sys', evs) ->
        isBackupActive (ui sys') = true
        /\ primaryCalls evs = 0
        /\ exists req, In (EvFetch req) evs).
Proof.
  intros Hr1 Hb Hr2.
  destruct (run_backup_sticky _ _ _ _ Hr2 Hb) as [Hb2 Hz].
  split; [exact Hb2|].
  split; [apply primaryCalls_zero; exact Hz|].
  split.
  { rewrite primaryCalls_app, Hz, Nat.add_0_r.
    apply (run_primary_calls _ _ _ _ Hr1). }
  split.
  { intros c key sys3 evs3 Hkey Hk Hin. unfold step, handleSendMessage.
    rewrite Hkey, Hb2.
    destruct (trim (input (ui sys2))) as [|x0 t0] eqn:Ht; [congruence|].
    destruct key as [|k0 key']; [congruence|].
    unfold userMessage.
    crunch; intros H; inversion H; subst; cbn; repeat split; auto. }
  split.
  { intros sys id e sys' evs. unfold step.
    crunch; intros H; inversion H; subst; cbn; split; eauto. }
  intros sys e key sys' evs Hkey Hk Hin Hc. unfold step, handleSendMessage.
  rewrite Hkey, Hc.
  destruct (trim (input (ui sys))) as [|x0 t0] eqn:Ht; [congruence|].
  destruct key as [|k0 key']; [congruence|].
  crunch; intros H; inversion H; subst; cbn; repeat split; eauto.
Qed.

(** *** What each kind of step does to the suspended invocations *)

Lemma step_send_shape (sys sys' : Sys) (c : completion Chat) (evs : list Event) :
  step sys (Send c) = Some (sys', evs) ->
  (inflight sys' = inflight sys
   /\ (added evs = [] \/ added evs = [keyMissingMessage])
   /\ fetches evs = [])
  \/ (exists k,
        inflight sys' = inflight sys ++ [(nextId sys, k)]
        /\ added evs = [userMessage (ui sys)]
        /\ ((k = AwaitSendMessage (messages (ui sys)) (input (ui sys))
             /\ fetches evs = [])
            \/ (k = AwaitOpenRouter
                /\ fetches evs
                   = [callOpenRouter_request
                        (messages (ui sys) ++ [userMessage (ui sys)])]))).
Proof.
  unfold step, userMessage, keyMissingMessage.
  crunch; intros H; inversion H; subst; clear H; cbn.
  all: first [ left; repeat split; auto; fail
             | right; eexists; split; [reflexivity|]; split; [reflexivity|];
               first [left; split; reflexivity | right; split; reflexivity] ].
Qed.

Lemma step_primary_settled_shape (sys sys' : Sys) (id : nat)
  (r : completion (option jsstring)) (evs : list Event) :
  step sys (SendMessageSettled id r) = Some (sys', evs) ->
  exists ms u,
    find_task id (inflight sys) = Some (AwaitSendMessage ms u)
    /\ ((inflight sys' = remove_task id (inflight sys)
         /\ (exists t, added evs = [mkMessage model t None])
         /\ fetches evs = [])
        \/ (inflight sys' = remove_task id (inflight sys) ++ [(id, AwaitOpenRouter)]
            /\ added evs = []
            /\ fetches evs = [callOpenRouter_request (ms ++ [msg user u])])).
Proof.
  unfold step.
  destruct (find_task id (inflight sys)) as [[ms u|]|]; try discriminate.
  crunch; intros H; inversion H; subst; clear H; cbn;
    do 2 eexists; (split; [reflexivity|]).
  all: first [ left; repeat split; eauto; fail
             | right; repeat split; eauto; fail ].
Qed.

Lemma step_backup_settled_shape (sys sys' : Sys) (id : nat)
  (r : completion Response) (evs : list Event) :
  step sys (OpenRouterSettled id r) = Some (sys', evs) ->
  find_task id (inflight sys) = Some AwaitOpenRouter
  /\ inflight sys' = remove_task id (inflight sys)
  /\ (exists t, added evs = [mkMessage model t None])
  /\ fetches evs = [].
Proof.
  unfold step.
  destruct (find_task id (inflight sys)) as [[ms u|]|]; try discriminate.
  unfold resumeOpenRouter.
  destruct (callOpenRouter_settle r); cbn;
    intros H; inversion H; subst; clear H; cbn;
    (split; [reflexivity|]); (split; [reflexivity|]);
    (split; [eexists; reflexivity | reflexivity]).
Qed.

Lemma step_other_shape (sys sys' : Sys) (a : Action) (evs : list Event) :
  step sys a = Some (sys', evs) ->
  match a with
  | Send _ | SendMessageSettled _ _ | OpenRouterSettled _ _ => True
  | _ =>
      inflight sys' = inflight sys
      /\ fetches evs = []
      /\ (added evs = []
          \/ (messages (ui sys) = [] /\ added evs = [greetingMessage]))
  end.
Proof.
  destruct a; try exact (fun _ => I); unfold step;
    try rewrite handleFeedback_eq.
  all: crunch; intros H; inversion H; subst; clear H; cbn; auto.
Qed.

(** *** Sends issued one at a time *)

Lemma turns_closed_app (a b : list Role) :
  turns_closed a = true -> turns_closed (a ++ b) = turns_closed b.
Proof.
  induction a as [|r a IH]; simpl; [reflexivity|].
  destruct r.
  - destruct a as [|[|] a']; try discriminate. exact IH.
  - exact IH.
Qed.

Lemma step_roles (sys sys' : Sys) (a : Action) (evs : list Event) :
  step sys a = Some (sys', evs) ->
  map role (messages (ui sys'))
  = map role (messages (ui sys)) ++ map role (added evs).
Proof.
  intros H. apply step_transcript in H.
  apply (f_equal (map fst)) in H.
  rewrite map_app, !map_map in H. exact H.
Qed.

Lemma orderly_inflight (sys : Sys) (id : nat) (k : Suspended) :
  orderly sys ->
  find_task id (inflight sys) = Some k ->
  inflight sys = [(id, k)]
  /\ remove_task id (inflight sys) = []
  /\ (exists pre,
        map role (messages (ui sys)) = pre ++ [user]
        /\ turns_closed pre = true)
  /\ match k with
     | AwaitSendMessage ms u =>
         map turn (messages (ui sys)) = map turn (ms ++ [msg user u])
     | AwaitOpenRouter => True
     end.
Proof.
  unfold orderly.
  destruct (inflight sys) as [|[id0 k0] [|x l]]; simpl; try discriminate.
  - intros [Hp Hk]. destruct (Nat.eqb_spec id0 id); [|discriminate].
    intros H; inversion H; subst. auto.
  - contradiction.
Qed.

Lemma step_orderly (sys sys' : Sys) (a : Action) (evs : list Event) :
  orderly sys ->
  (isSend a = true -> inflight sys = []) ->
  step sys a = Some (sys', evs) ->
  orderly sys'.
Proof.
  intros Hord Hdisc Hstep.
  pose proof (step_roles _ _ _ _ Hstep) as Hroles.
  pose proof (step_transcript _ _ _ _ Hstep) as Hturns.
  destruct a.
  2: { (* Send *)
    specialize (Hdisc eq_refl).
    unfold orderly in Hord. rewrite Hdisc in Hord.
    destruct (step_send_shape _ _ _ _ Hstep)
      as [(Hi & Ha & _) | (k & Hi & Ha & Hk)];
      unfold orderly; rewrite Hi, Hdisc; simpl.
    - rewrite Hroles.
      destruct Ha as [-> | ->]; simpl;
        rewrite turns_closed_app by exact Hord; reflexivity.
    - rewrite Ha in Hroles, Hturns. simpl in Hroles, Hturns. split.
      + eexists; split; [exact Hroles | exact Hord].
      + destruct Hk as [[-> _] | [-> _]]; [|exact I].
        rewrite Hturns, map_app. reflexivity. }
  5: { (* SendMessageSettled *)
    destruct (step_primary_settled_shape _ _ _ _ _ Hstep)
      as (ms & u & Hf & Hcase).
    destruct (orderly_inflight _ _ _ Hord Hf) as (Hin & Hrem & (pre & Hp & Hc) & Hk).
    unfold orderly.
    destruct Hcase as [(Hi & (t & Ha) & _) | (Hi & Ha & _)];
      rewrite Hi, Hrem; simpl.
    - rewrite Hroles, Ha, Hp, <- app_assoc. simpl.
      rewrite turns_closed_app by exact Hc. reflexivity.
    - rewrite Ha in Hroles. simpl in Hroles. rewrite app_nil_r in Hroles.
      split; [|exact I]. exists pre. rewrite Hroles. auto. }
  5: { (* OpenRouterSettled *)
    destruct (step_backup_settled_shape _ _ _ _ _ Hstep)
      as (Hf & Hi & (t & Ha) & _).
    destruct (orderly_inflight _ _ _ Hord Hf) as (Hin & Hrem & (pre & Hp & Hc) & _).
    unfold orderly. rewrite Hi, Hrem; simpl.
    rewrite Hroles, Ha, Hp, <- app_assoc. simpl.
    rewrite turns_closed_app by exact Hc. reflexivity. }
  all: pose proof (step_other_shape _ _ _ _ Hstep) as Hsh; simpl in Hsh;
       destruct Hsh as (Hi & _ & Ha); unfold orderly in *; rewrite Hi;
       destruct Ha as [Ha | [Hnil Ha]]; rewrite Ha in Hroles, Hturns;
       simpl in Hroles, Hturns; rewrite ?app_nil_r in Hroles, Hturns;
       try (rewrite Hroles, Hturns; exact Hord).
  all: rewrite Hnil in *; simpl in *;
       destruct (inflight sys) as [|[id0 k0] [|x l]]; try contradiction;
       [ rewrite Hroles; reflexivity
       | destruct Hord as [(pre & Hp & _) _]; destruct pre; discriminate ].
Qed.

Lemma run_orderly (acts : list Action) :
  forall sys sys' evs,
    orderly sys ->
    one_at_a_time sys acts = true ->
    run sys acts = Some (sys', evs) ->
    orderly sys'.
Proof.
  induction acts as [|a acts IH]; intros sys sys' evs Hord; simpl.
  - intros _ H; inversion H; subst. exact Hord.
  - destruct (step sys a) as [[sys1 evs1]|] eqn:Hs; [|discriminate].
    destruct (run sys1 acts) as [[sys2 evs2]|] eqn:Hr; [|discriminate].
    intros Hd H; inversion H; subst.
    apply andb_prop in Hd. destruct Hd as [Hd1 Hd2].
    apply (IH sys1 sys' evs2); [|exact Hd2 | exact Hr].
    apply (step_orderly sys sys1 a evs1); [exact Hord | | exact Hs].
    intros Hsend. rewrite Hsend in Hd1.
    destruct (inflight sys); [reflexivity | discriminate].
Qed.

(** C4 (as the code has it). The handler has no guard of its own: a send
    with a non-blank input is accepted whatever is suspended at that moment;
    its user message is added at once and one more invocation is parked, so
    the entries of overlapping sends interleave.  Turn order is kept only if
    the caller issues each send after the previous one has completed: then
    at most one invocation is ever suspended, and whenever none is, every
    user entry of the transcript is directly followed by its reply. *)
Theorem turn_order_needs_one_send_at_a_time :
  (forall sys c key,
      API_KEY process_env = Some key -> key <> [] ->
      trim (input (ui sys)) <> [] ->
      exists sys1 evs k,
        step sys (Send c) = Some (sys1, evs)
        /\ inflight sys1 = inflight sys ++ [(nextId sys, k)]
        /\ map turn (messages (ui sys1))
           = map turn (messages (ui sys)) ++ [(user, Str (input (ui sys)))])
  /\ (forall sys acts sys' evs,
        inflight sys = [] ->
        turns_closed (map role (messages (ui sys))) = true ->
        one_at_a_time sys acts = true ->
        run sys acts = Some (sys', evs) ->
        List.length (inflight sys') <= 1
        /\ (inflight sys' = [] ->
            turns_closed (map role (messages (ui sys'))) = true)
        /\ (inflight sys' <> [] ->
            exists pre,
              map role (messages (ui sys')) = pre ++ [user]
              /\ turns_closed pre = true)).
Proof.
  split.
  - intros sys c key Hkey Hk Hin.
    destruct (step sys (Send c)) as [[sys1 evs]|] eqn:Hs;
      [|unfold step in Hs; crunch; discriminate].
    pose proof (step_transcript _ _ _ _ Hs) as Ht.
    destruct (step_send_shape _ _ _ _ Hs) as [(_ & Ha & _) | (k & Hi & Ha & _)].
    + exfalso. revert Hs. unfold step, handleSendMessage. rewrite Hkey.
      destruct (trim (input (ui sys))) as [|x0 t0] eqn:Htr; [congruence|].
      destruct key as [|k0 key']; [congruence|].
      crunch; intros H; inversion H; subst; cbn in Ha;
        destruct Ha; discriminate.
    + exists sys1, evs, k. rewrite Ha in Ht. auto.
  - intros sys acts sys' evs Hi Hc Hd Hr.
    assert (Hord : orderly sys) by (unfold orderly; rewrite Hi; exact Hc).
    pose proof (run_orderly _ _ _ _ Hord Hd Hr) as Ho.
    unfold orderly in Ho.
    destruct (inflight sys') as [|[id k] [|x l]]; simpl.
    + repeat split; [lia | auto | congruence].
    + destruct Ho as [Hp _]. repeat split; [lia | discriminate | auto].
    + contradiction.
Qed.









(** *** Further properties of the chat component *)

(** X1. The transcript is append-only under every interleaving of events:
    a run keeps each existing entry at its position with its role and text
    (only feedback marks change), and what it adds is, in order, what its
    trace reports.  This includes the greeting, whose setter replaces the
    array but only runs on an empty one. *)
Theorem transcript_is_append_only (sys sys' : Sys) (acts : list Action)
  (evs : list Event) :
  run sys acts = Some (sys', evs) ->
  map turn (messages (ui sys'))
  = map turn (messages (ui sys)) ++ map turn (added evs)
  /\ List.length (messages (ui sys'))
     = List.length (messages (ui sys)) + List.length (added evs)
  /\ forall i m,
       nth_error (messages (ui sys)) i = Some m ->
       exists m',
         nth_error (messages (ui sys')) i = Some m'
         /\ role m' = role m /\ text m' = text m.
Proof.
  intros Hr. pose proof (run_transcript _ _ _ _ Hr) as Ht.
  split; [exact Ht|]. split.
  - apply (f_equal (@List.length _)) in Ht.
    rewrite length_app, !length_map in Ht. exact Ht.
  - intros i m Hm.
    assert (Hn : nth_error (map turn (messages (ui sys'))) i = Some (turn m)).
    { rewrite Ht, nth_error_app1.
      - rewrite nth_error_map, Hm. reflexivity.
      - rewrite length_map. apply nth_error_Some. congruence. }
    rewrite nth_error_map in Hn.
    destruct (nth_error (messages (ui sys')) i) as [m'|]; [|discriminate].
    exists m'. split; [reflexivity|].
    simpl in Hn. unfold turn in Hn. inversion Hn. split; reflexivity.
Qed.

(** X2. The Primary path.  In Primary mode with a chat object at hand, a
    send whose [sendMessage] resolves with a non-empty text adds the user
    message (the input as typed, not trimmed) and the reply, clears the
    input box and the typing flag, keeps the mode and the chat object, calls
    [sendMessage] once with the user text alone and makes no Backup
    request. *)
Theorem primary_answer_is_appended (st : State) (w : Providers)
  (key : jsstring) (c : Chat) (t : jsstring) :
  API_KEY process_env = Some key ->
  key <> [] ->
  trim (input st) <> [] ->
  isBackupActive st = false ->
  chatAvailable st w = Some c ->
  answered w = Normal (Some t) ->
  t <> [] ->
  exists st' evs,
    send w st = (Done (Normal tt), st', evs)
    /\ messages st' = messages st ++ [msg user (input st); msg model t]
    /\ input st' = []
    /\ isTyping st' = false
    /\ isBackupActive st' = false
    /\ chatClient st' = Some c
    /\ filter isPrimaryCall evs = [EvSendMessage c (input st)]
    /\ fetches evs = [].
Proof.
  intros Hkey Hk Hin Hb Hc Ha Ht.
  unfold send, handleSendMessage, chatAvailable in *.
  rewrite Hkey, Hb.
  destruct (trim (input st)) as [|x0 t0] eqn:Htr; [congruence|].
  destruct key as [|k0 key']; [congruence|].
  destruct t as [|c0 t']; [congruence|].
  unfold resumeSendMessage. rewrite Ha.
  destruct (chatClient st) as [ch|] eqn:Hcc;
    [|destruct (created w) as [ch|e0] eqn:Hcr; [|discriminate]];
    inversion Hc; subst; cbn;
    do 2 eexists; (split; [reflexivity|]); cbn;
    rewrite <- ?app_assoc; repeat split; try reflexivity; congruence.
Qed.

(** X3. Failover is silent.  When the Primary attempt of a send fails (no
    chat object, or [sendMessage] rejects) and [callOpenRouter] resolves,
    the transcript gets the user message and the Backup text and nothing
    else: no error entry tells the user about the Primary failure.  The mode
    is Backup afterwards, and the one Backup request, made after the
    Primary attempt, carries the closure's transcript plus the user
    message. *)
Theorem failover_is_silent (st : State) (w : Providers) (key : jsstring)
  (t : value) :
  API_KEY process_env = Some key ->
  key <> [] ->
  trim (input st) <> [] ->
  isBackupActive st = false ->
  (chatAvailable st w = None \/ exists e, answered w = Throw e) ->
  callOpenRouter_settle (fetched w) = Normal t ->
  exists st' pre,
    send w st
    = (Done (Normal tt), st',
       pre ++ [ EvFetch (callOpenRouter_request
                           (messages st ++ [msg user (input st)]));
                EvMessage (mkMessage model t None) ])
    /\ added pre = [msg user (input st)]
    /\ fetches pre = []
    /\ messages st'
       = messages st ++ [msg user (input st); mkMessage model t None]
    /\ isBackupActive st' = true
    /\ isTyping st' = false.
Proof.
  intros Hkey Hk Hin Hb Hfail Hset.
  unfold send, handleSendMessage, chatAvailable in *.
  rewrite Hkey, Hb.
  destruct (trim (input st)) as [|x0 t0] eqn:Htr; [congruence|].
  destruct key as [|k0 key']; [congruence|].
  unfold resumeSendMessage, resumeOpenRouter, fallbackToOpenRouter.
  destruct (chatClient st) as [ch|] eqn:Hcc;
    [|destruct (created w) as [ch|e0] eqn:Hcr];
    try (destruct (answered w) as [r|e1] eqn:Ha;
         [exfalso; destruct Hfail as [Hf|[e' Hf]]; discriminate|]);
    cbn; rewrite Hset; cbn.
  - eexists.
    exists [EvMessage (msg user (input st)); EvSendMessage ch (input st)].
    split; [reflexivity|]. cbn. rewrite <- !app_assoc.
    repeat split; reflexivity.
  - eexists.
    exists [EvMessage (msg user (input st)); EvCreateChat (k0 :: key');
            EvSendMessage ch (input st)].
    split; [reflexivity|]. cbn. rewrite <- !app_assoc.
    repeat split; reflexivity.
  - eexists.
    exists [EvMessage (msg user (input st)); EvCreateChat (k0 :: key')].
    split; [reflexivity|]. cbn. rewrite <- !app_assoc.
    repeat split; reflexivity.
Qed.

(** X4. Pressing send twice sends once.  An accepted send empties the
    input box in its first segment, so a second send issued before anything
    is typed is a no-op, whether or not the first call has settled. *)
Theorem second_send_without_typing_is_noop (sys sys1 : Sys)
  (c c' : completion Chat) (key : jsstring) (evs : list Event) :
  API_KEY process_env = Some key ->
  key <> [] ->
  trim (input (ui sys)) <> [] ->
  step sys (Send c) = Some (sys1, evs) ->
  input (ui sys1) = []
  /\ step sys1 (Send c') = Some (sys1, [])
  /\ forall acts sys2 evs2,
       forallb (fun a => match a with Typed _ => false | _ => true end) acts
       = true ->
       run sys1 acts = Some (sys2, evs2) ->
       input (ui sys2) = [].
Proof.
  intros Hkey Hk Hin Hs.
  assert (H1 : input (ui sys1) = []).
  { revert Hs. unfold step, handleSendMessage. rewrite Hkey.
    destruct (trim (input (ui sys))) as [|x0 t0] eqn:Htr; [congruence|].
    destruct key as [|k0 key']; [congruence|].
    crunch; intros H; inversion H; reflexivity. }
  split; [exact H1|]. split.
  { unfold step, handleSendMessage. rewrite H1. simpl.
    rewrite sys_eta. reflexivity. }
  intros acts. revert H1. generalize sys1. clear.
  induction acts as [|a acts IH]; intros sys1 H1 sys2 evs2 Hnt; simpl.
  - intros H; inversion H; subst. exact H1.
  - simpl in Hnt. apply andb_prop in Hnt. destruct Hnt as [Ha Hnt].
    destruct (step sys1 a) as [[sys' evs1]|] eqn:Hs; [|discriminate].
    destruct (run sys' acts) as [[sys'' evs']|] eqn:Hr; [|discriminate].
    intros H; inversion H; subst.
    apply (IH sys' ) with (evs2 := evs'); [|exact Hnt | exact Hr].
    revert Hs. destruct a; try discriminate; unfold step;
      try rewrite handleFeedback_eq.
    all: unfold handleSendMessage; rewrite ?H1; simpl.
    all: crunch; intros H'; inversion H'; subst; cbn; auto.
Qed.

Lemma step_typing (sys sys' : Sys) (a : Action) (evs : list Event) :
  List.length (inflight sys) <= 1 ->
  isTyping (ui sys) = negb (idle sys) ->
  (isSend a = true -> inflight sys = []) ->
  step sys a = Some (sys', evs) ->
  List.length (inflight sys') <= 1
  /\ isTyping (ui sys') = negb (idle sys').
Proof.
  intros Hlen Hty Hdisc. unfold idle in Hty.
  destruct (inflight sys) as [|[id0 k0] [|x l]] eqn:Hi;
    [| |simpl in Hlen; lia].
  - destruct a; unfold step; rewrite ?Hi; try rewrite handleFeedback_eq.
    all: crunch; intros H; inversion H; subst; clear H;
         unfold idle; cbn; auto.
  - destruct a; try (specialize (Hdisc eq_refl); discriminate);
      unfold step; rewrite ?Hi; try rewrite handleFeedback_eq.
    all: crunch; intros H; inversion H; subst; clear H;
         unfold idle; cbn; auto.
Qed.

(** X5. With sends issued one at a time, the typing indicator is on
    exactly while a call is pending: starting with the flag off and nothing
    suspended, after every run of that kind [isTyping] is true if and only if
    an invocation is suspended. *)
Theorem typing_flag_tracks_pending_send (acts : list Action) :
  forall sys sys' evs,
    inflight sys = [] ->
    isTyping (ui sys) = false ->
    one_at_a_time sys acts = true ->
    run sys acts = Some (sys', evs) ->
    List.length (inflight sys') <= 1
    /\ isTyping (ui sys') = negb (idle sys').
Proof.
  assert (H : forall sys sys' evs,
             List.length (inflight sys) <= 1 ->
             isTyping (ui sys) = negb (idle sys) ->
             one_at_a_time sys acts = true ->
             run sys acts = Some (sys', evs) ->
             List.length (inflight sys') <= 1
             /\ isTyping (ui sys') = negb (idle sys')).
  { induction acts as [|a acts IH]; intros sys sys' evs Hlen Hty; simpl.
    - intros _ H; inversion H; subst. auto.
    - destruct (step sys a) as [[sys1 evs1]|] eqn:Hs; [|discriminate].
      destruct (run sys1 acts) as [[sys2 evs2]|] eqn:Hr; [|discriminate].
      intros Hd H; inversion H; subst.
      apply andb_prop in Hd. destruct Hd as [Hd1 Hd2].
      assert (Hdisc : isSend a = true -> inflight sys = []).
      { intros Hsend. rewrite Hsend in Hd1.
        destruct (inflight sys); [reflexivity | discriminate]. }
      destruct (step_typing _ _ _ _ Hlen Hty Hdisc Hs) as [Hlen1 Hty1].
      exact (IH _ _ _ Hlen1 Hty1 Hd2 Hr). }
  intros sys sys' evs Hi Hty. apply H.
  - rewrite Hi. simpl. lia.
  - unfold idle. rewrite Hi. exact Hty.
Qed.

Lemma step_client (sys sys' : Sys) (a : Action) (evs : list Event) (c : Chat) :
  chatClient (ui sys) = Some c ->
  step sys a = Some (sys', evs) ->
  chatClient (ui sys') = Some c /\ Forall (usesChat c) evs.
Proof.
  intros Hc.
  destruct a; unfold step; try rewrite handleFeedback_eq.
  all: crunch; intros H; inversion H; subst; clear H; cbn.
  all: try discriminate.
  all: split; [assumption || congruence|].
  all: repeat constructor; cbn; congruence.
Qed.

(** X6. The chat object is created once and kept.  Once the component
    holds a chat object, every later event leaves that object in place, none
    runs the SDK constructor again, and every [sendMessage] call goes through
    that object. *)
Theorem chat_object_is_kept (acts : list Action) :
  forall sys sys' evs c,
    chatClient (ui sys) = Some c ->
    run sys acts = Some (sys', evs) ->
    chatClient (ui sys') = Some c /\ Forall (usesChat c) evs.
Proof.
  induction acts as [|a acts IH]; intros sys sys' evs c Hc; simpl.
  - intros H; inversion H; subst. split; [exact Hc | constructor].
  - destruct (step sys a) as [[sys1 evs1]|] eqn:Hs; [|discriminate].
    destruct (run sys1 acts) as [[sys2 evs2]|] eqn:Hr; [|discriminate].
    intros H; inversion H; subst.
    destruct (step_client _ _ _ _ _ Hc Hs) as [Hc1 Hf1].
    destruct (IH _ _ _ _ Hc1 Hr) as [Hc2 Hf2].
    split; [exact Hc2|]. apply Forall_app. split; assumption.
Qed.

Lemma step_without_key (sys sys' : Sys) (a : Action) (evs : list Event) :
  keyMissing ->
  inflight sys = [] ->
  step sys a = Some (sys', evs) ->
  inflight sys' = []
  /\ forallb (fun e => negb (isProviderCall e)) evs = true
  /\ chatClient (ui sys') = chatClient (ui sys)
  /\ isBackupActive (ui sys') = isBackupActive (ui sys)
  /\ isTyping (ui sys') = isTyping (ui sys).
Proof.
  unfold keyMissing. intros Hk Hi.
  destruct a; unfold step; rewrite ?Hi; try rewrite handleFeedback_eq.
  all: crunch; intros H; inversion H; subst; clear H; cbn; auto.
  all: destruct Hk as [Hk|Hk]; inversion Hk; subst; discriminate.
Qed.

(** X7. Without the Primary credential the component never reaches a
    provider, whatever the user does: starting with nothing suspended, no
    event of any run constructs the SDK client, calls [sendMessage] or
    fetches from the Backup endpoint; nothing is ever suspended, and the
    chat object, the mode and the typing flag stay as they were. *)
Theorem no_provider_call_without_key (acts : list Action) :
  forall sys sys' evs,
    keyMissing ->
    inflight sys = [] ->
    run sys acts = Some (sys', evs) ->
    inflight sys' = []
    /\ forallb (fun e => negb (isProviderCall e)) evs = true
    /\ chatClient (ui sys') = chatClient (ui sys)
    /\ isBackupActive (ui sys') = isBackupActive (ui sys)
    /\ isTyping (ui sys') = isTyping (ui sys).
Proof.
  induction acts as [|a acts IH]; intros sys sys' evs Hk Hi; simpl.
  - intros H; inversion H; subst. auto.
  - destruct (step sys a) as [[sys1 evs1]|] eqn:Hs; [|discriminate].
    destruct (run sys1 acts) as [[sys2 evs2]|] eqn:Hr; [|discriminate].
    intros H; inversion H; subst.
    destruct (step_without_key _ _ _ _ Hk Hi Hs) as (Hi1 & He1 & Hc1 & Hb1 & Ht1).
    destruct (IH _ _ _ Hk Hi1 Hr) as (Hi2 & He2 & Hc2 & Hb2 & Ht2).
    rewrite forallb_app, He1, He2. repeat split; congruence.
Qed.

Lemma find_task_length (id : nat) (k : Suspended) (l : list (nat * Suspended)) :
  find_task id l = Some k ->
  List.length l = S (List.length (remove_task id l)).
Proof.
  induction l as [|[i k0] l IH]; simpl; [discriminate|].
  destruct (Nat.eqb i id); [reflexivity|].
  intros H. simpl. rewrite (IH H). reflexivity.
Qed.

Ltac task_length :=
  repeat match goal with
         | H : find_task _ _ = Some _ |- _ => apply find_task_length in H
         end;
  rewrite ?length_app; cbn; lia.

Lemma step_balance (sys sys' : Sys) (a : Action) (evs : list Event) :
  step sys a = Some (sys', evs) ->
  usersIn (added evs) + List.length (inflight sys)
  <= modelsIn (added evs) + List.length (inflight sys').
Proof.
  unfold usersIn, modelsIn.
  destruct a; unfold step; try rewrite handleFeedback_eq.
  all: crunch; intros H; inversion H; subst; clear H; cbn; try lia.
  all: task_length.
Qed.

Lemma step_balance_exact (sys sys' : Sys) (a : Action) (evs : list Event)
  (key : jsstring) :
  API_KEY process_env = Some key ->
  key <> [] ->
  messages (ui sys) <> [] ->
  step sys a = Some (sys', evs) ->
  usersIn (added evs) + List.length (inflight sys)
  = modelsIn (added evs) + List.length (inflight sys').
Proof.
  unfold usersIn, modelsIn. intros Hkey Hk Hm.
  destruct key as [|k0 key']; [congruence|].
  destruct a; unfold step; try rewrite handleFeedback_eq.
  all: unfold handleSendMessage; rewrite ?Hkey.
  all: crunch; intros H; inversion H; subst; clear H; cbn; try lia;
       try congruence.
  all: task_length.
Qed.

Lemma count_app (f : Message -> bool) (a b : list Message) :
  List.length (filter f (a ++ b))
  = List.length (filter f a) + List.length (filter f b).
Proof. rewrite filter_app, length_app. reflexivity. Qed.

Lemma added_app (e1 e2 : list Event) : added (e1 ++ e2) = added e1 ++ added e2.
Proof.
  induction e1 as [|[] e1 IH]; simpl; rewrite ?IH; reflexivity.
Qed.

(** X8. No turn is dropped, under any interleaving.  Over every run, the
    user messages added plus the invocations suspended before it are matched
    by the assistant entries added plus the invocations still suspended
    after it; so once nothing is suspended every user message has got its
    own assistant entry.  With the credential configured and a non-empty
    transcript to start from (no notice, no greeting) the two sides are
    equal: exactly one assistant entry per user message. *)
Theorem every_user_message_gets_a_reply (acts : list Action) :
  forall sys sys' evs,
    run sys acts = Some (sys', evs) ->
    usersIn (added evs) + List.length (inflight sys)
    <= modelsIn (added evs) + List.length (inflight sys')
    /\ (forall key,
          API_KEY process_env = Some key ->
          key <> [] ->
          messages (ui sys) <> [] ->
          usersIn (added evs) + List.length (inflight sys)
          = modelsIn (added evs) + List.length (inflight sys')).
Proof.
  unfold usersIn, modelsIn.
  induction acts as [|a acts IH]; intros sys sys' evs; simpl.
  - intros H; inversion H; subst. simpl. split; [lia | intros; lia].
  - destruct (step sys a) as [[sys1 evs1]|] eqn:Hs; [|discriminate].
    destruct (run sys1 acts) as [[sys2 evs2]|] eqn:Hr; [|discriminate].
    intros H; inversion H; subst.
    destruct (IH _ _ _ Hr) as [Hle Heq].
    pose proof (step_balance _ _ _ _ Hs) as Hle1.
    unfold usersIn, modelsIn in Hle1.
    rewrite added_app, !count_app. split; [lia|].
    intros key Hkey Hk Hm.
    pose proof (step_balance_exact _ _ _ _ _ Hkey Hk Hm Hs) as Heq1.
    unfold usersIn, modelsIn in Heq1.
    assert (Hm1 : messages (ui sys1) <> []).
    { pose proof (step_transcript _ _ _ _ Hs) as Ht.
      intros Hnil. rewrite Hnil in Ht. simpl in Ht.
      destruct (messages (ui sys)); [congruence | discriminate]. }
    specialize (Heq key Hkey Hk Hm1). lia.
Qed.

Lemma marked_marked (i j : Z) (a b : Feedback) (l : list Message) :
  i <> j ->
  marked j b (marked i a l) = marked i a (marked j b l).
Proof.
  intros Hij. apply nth_error_ext. intros n.
  rewrite !nth_error_marked.
  destruct (Z.eqb_spec (Z.of_nat n) i), (Z.eqb_spec (Z.of_nat n) j);
    try congruence; try reflexivity.
Qed.

Lemma marked_thrice (i : Z) (a : Feedback) (l : list Message) :
  marked i a (marked i a (marked i a l)) = marked i a l.
Proof.
  apply nth_error_ext. intros n. rewrite !nth_error_marked.
  destruct (Z.of_nat n =? i)%Z; [|reflexivity].
  destruct (nth_error l n) as [[r t [[|]|]]|]; destruct a; reflexivity.
Qed.

(** X9. Feedback clicks compose as toggles: clicks on two different
    entries commute (the final state is the same in either order), and a
    third click on the same button gives what the first one gave. *)
Theorem feedback_clicks_compose (st : State) (i j : Z) (a b : Feedback) :
  (i <> j -> feedbackBoth i a j b st = feedbackBoth j b i a st)
  /\ feedbackThrice i a st = handleFeedback i a st.
Proof.
  unfold feedbackBoth, feedbackThrice, bind.
  repeat (rewrite handleFeedback_eq; cbv beta iota zeta).
  cbn [isOpen messages input isTyping showNotification chatClient
       isBackupActive app].
  split.
  - intros Hij. rewrite (marked_marked i j a b _ Hij). reflexivity.
  - rewrite marked_thrice. reflexivity.
Qed.

(** X10. When [callOpenRouter] fails.  It rejects exactly when the fetch
    rejects, the response status is not ok, the body is not JSON, or the
    body is the JSON [null] (or nothing readable).  With a status that is
    not ok the body is never read and the error message is "OpenRouter API
    Error: " followed by the status text.  When it resolves, the value is
    [choices[0].message.content] if that is truthy and the empty string
    otherwise, so never another falsy value. *)
Theorem callOpenRouter_outcomes (f : completion Response) :
  ((exists e, callOpenRouter_settle f = Throw e)
   <-> (exists e, f = Throw e)
       \/ exists r, f = Normal r
            /\ (ok r = false
                \/ (exists e, json r = Throw e)
                \/ json r = Normal Null
                \/ json r = Normal Undefined))
  /\ (forall r, f = Normal r -> ok r = false ->
         callOpenRouter_settle f
         = Throw (Error (lit "OpenRouter API Error: " ++ statusText r)))
  /\ (forall t, callOpenRouter_settle f = Normal t ->
         (exists r data,
             f = Normal r /\ ok r = true /\ json r = Normal data
             /\ t = or_else (contentOf data) (Str []))
         /\ (truthy t = true \/ t = Str [])).
Proof.
  unfold callOpenRouter_settle, contentOf.
  split; [|split].
  - split.
    + intros [e He]. destruct f as [r|e0]; [|left; eauto].
      right. exists r. split; [reflexivity|].
      destruct (ok r); [|left; reflexivity]. right. simpl in He.
      destruct (json r) as [data|e1]; [|left; eauto].
      right. destruct data; simpl in He; try discriminate; auto.
    + intros [[e ->] | (r & -> & [Hok | [[e Hj] | [Hj | Hj]]])].
      * eauto.
      * rewrite Hok. simpl. eauto.
      * destruct (ok r); simpl; [rewrite Hj|]; eauto.
      * destruct (ok r); simpl; [rewrite Hj|]; simpl; eauto.
      * destruct (ok r); simpl; [rewrite Hj|]; simpl; eauto.
  - intros r -> Hok. rewrite Hok. reflexivity.
  - intros t Ht. destruct f as [r|e0]; [|discriminate].
    destruct (ok r) eqn:Hok; simpl in Ht; [|discriminate].
    destruct (json r) as [data|e1] eqn:Hj; [|discriminate].
    assert (Hval : t = or_else
                         (get_opt (get_opt (index0_opt
                            (get_opt data (lit "choices"))) (lit "message"))
                            (lit "content")) (Str [])).
    { destruct data; simpl in Ht; try discriminate; inversion Ht; reflexivity. }
    split; [exists r, data; auto|].
    rewrite Hval.
    generalize (get_opt (get_opt (index0_opt (get_opt data (lit "choices")))
                           (lit "message")) (lit "content")).
    intros v. unfold or_else.
    destruct (truthy v) eqn:Htr; [left; exact Htr | right; reflexivity].
Qed.

End Properties.

(** ** The properties at sample inputs *)

Ltac by_computation := vm_compute; reflexivity.

Ltac non_empty := let H := fresh in intro H; vm_compute in H; discriminate H.

(** C9 at an all-blank input, with a greeting on display. *)
Lemma empty_input_is_noop_witness :
  trim (input (ui blank_widget)) = []
  /\ @step sample blank_widget (Send (Normal chat0)) = Some (blank_widget, [])
  /\ @send sample all_fine (ui blank_widget)
     = (Done (Normal tt), ui blank_widget, []).
Proof.
  split; [by_computation|].
  apply (@empty_input_is_noop sample blank_widget (Normal chat0) all_fine).
  by_computation.
Defined.

(** C7 as stated fails: index 5 is outside a transcript of two entries, yet
    [handleFeedback] returns normally and changes nothing (a silent no-op);
    index 0 points at the user message, yet the feedback is recorded on it. *)
Lemma feedback_index_is_not_checked :
  handleFeedback 5 up two_entries = (Normal tt, two_entries, [])
  /\ (forall e, fst (fst (handleFeedback 5 up two_entries)) <> Throw e)
  /\ (forall e, fst (fst (handleFeedback 0 up two_entries)) <> Throw e)
  /\ map role (messages two_entries) = [user; model]
  /\ map feedback (messages (snd (fst (handleFeedback 0 up two_entries))))
     = [Some up; None].
Proof.
  split; [by_computation|].
  split; [intros e H; vm_compute in H; discriminate H|].
  split; [intros e H; vm_compute in H; discriminate H|].
  split; by_computation.
Qed.

(** C7 (as the code has it) at the out-of-range index 5. *)
Lemma handleFeedback_never_rejects_witness :
  exists st',
    handleFeedback 5 up two_entries = (Normal tt, st', [])
    /\ st' = two_entries.
Proof.
  destruct (handleFeedback_never_rejects 5 up two_entries)
    as (st' & Heq & Hout & _).
  exists st'. split; [exact Heq|].
  apply Hout. right. vm_compute. discriminate.
Defined.

(** C8 as stated fails: on a reply already marked "up", selecting "up" twice
    leaves it at "up", not cleared. *)
Lemma feedback_twice_restores_mark :
  nth_error (messages reply_marked_up) 1
  = Some (mkMessage model (Str (lit "yo")) (Some up))
  /\ nth_error (messages (snd (fst (feedbackTwice 1 up up reply_marked_up)))) 1
     = Some (mkMessage model (Str (lit "yo")) (Some up)).
Proof. split; by_computation. Qed.

(** C8 (as the code has it) at the unmarked reply of [two_entries]. *)
Lemma feedback_toggle_law_witness :
  nth_error (messages two_entries) 1 = Some (msg model (lit "yo"))
  /\ (exists m2,
        nth_error (messages (snd (fst (feedbackTwice (Z.of_nat 1) up up two_entries)))) 1
        = Some m2
        /\ feedback m2 = None)
  /\ (exists m2,
        nth_error (messages (snd (fst (feedbackTwice (Z.of_nat 1) up down two_entries)))) 1
        = Some m2
        /\ feedback m2 = Some down).
Proof.
  assert (H : nth_error (messages two_entries) 1 = Some (msg model (lit "yo")))
    by by_computation.
  split; [exact H|].
  destruct (feedback_toggle_law two_entries 1 (msg model (lit "yo")) up H)
    as [(m2 & Hn & _ & Hclear & _) (m3 & Hn3 & _ & Hdown)].
  split.
  - exists m2. split; [exact Hn|]. apply Hclear. simpl. discriminate.
  - exists m3. split; [exact Hn3 | exact Hdown].
Defined.

(** C1 as stated fails: without the Primary credential, sending "hello"
    completes with the credential notice as the only entry; the user message
    is not in the transcript. *)
Lemma user_message_dropped_without_key :
  trim (input (ui hello_widget)) <> []
  /\ @step sample_without_key hello_widget (Send (Normal chat0))
     = Some (mkSys (mkState true [keyMissingMessage] (lit "hello") false false
                      None false) [] 0,
             [EvMessage keyMissingMessage])
  /\ ~ In (user, Str (lit "hello")) (map turn [keyMissingMessage]).
Proof.
  split; [non_empty|].
  split; [by_computation|].
  intros [H|[]]. vm_compute in H. discriminate H.
Qed.

(** C1 (as the code has it) at "hello" with the credential configured. *)
Lemma user_message_appended_first_witness :
  API_KEY (@process_env sample) = Some (lit "primary-key")
  /\ lit "primary-key" <> []
  /\ trim (input (ui hello_widget)) <> []
  /\ exists sys1 rest,
      @step sample hello_widget (Send (Normal chat0))
      = Some (sys1, EvMessage (msg user (input (ui hello_widget))) :: rest)
      /\ added rest = []
      /\ messages (ui sys1)
         = messages (ui hello_widget) ++ [msg user (input (ui hello_widget))]
      /\ forall acts sys2 evs2,
           @run sample sys1 acts = Some (sys2, evs2) ->
           exists m,
             nth_error (messages (ui sys2))
               (List.length (messages (ui hello_widget))) = Some m
             /\ role m = user /\ text m = Str (input (ui hello_widget)).
Proof.
  assert (H1 : API_KEY (@process_env sample) = Some (lit "primary-key"))
    by reflexivity.
  assert (H2 : lit "primary-key" <> []) by non_empty.
  assert (H3 : trim (input (ui hello_widget)) <> []) by non_empty.
  split; [exact H1|]. split; [exact H2|]. split; [exact H3|].
  exact (@user_message_appended_first sample hello_widget (Normal chat0)
           (lit "primary-key") H1 H2 H3).
Defined.

(** C6 as stated fails: without the credential the send returns normally,
    no error reaches the caller; the condition shows as a transcript entry. *)
Lemma missing_credential_is_not_an_error :
  @keyMissing sample_without_key
  /\ @send sample_without_key all_fine (ui hello_widget)
     = (Done (Normal tt),
        mkState true [keyMissingMessage] (lit "hello") false false None false,
        [EvMessage keyMissingMessage])
  /\ forall e,
       fst (fst (@send sample_without_key all_fine (ui hello_widget)))
       <> Done (Throw e).
Proof.
  split; [left; reflexivity|].
  split; [by_computation|].
  intros e H. vm_compute in H. discriminate H.
Qed.

(** C6 (as the code has it) at "hello". *)
Lemma missing_credential_notice_witness :
  @keyMissing sample_without_key
  /\ trim (input (ui hello_widget)) <> []
  /\ @step sample_without_key hello_widget (Send (Normal chat0))
     = Some (mkSys (mkState true [keyMissingMessage] (lit "hello") false false
                      None false) [] 0,
             [EvMessage keyMissingMessage])
  /\ @send sample_without_key all_fine (ui hello_widget)
     = (Done (Normal tt),
        mkState true [keyMissingMessage] (lit "hello") false false None false,
        [EvMessage keyMissingMessage]).
Proof.
  assert (H1 : @keyMissing sample_without_key) by (left; reflexivity).
  assert (H2 : trim (input (ui hello_widget)) <> []) by non_empty.
  split; [exact H1|]. split; [exact H2|].
  exact (@missing_credential_notice sample_without_key hello_widget
           (Normal chat0) all_fine H1 H2).
Defined.

(** C3 as stated fails: with the credential missing and both providers
    able to answer "pong", the send adds an assistant entry with a fixed
    text, not a provider's, although no provider failed (none was called).
    And the handler's result after a double failure is the one it has after
    a success. *)
Lemma notice_without_provider_failure :
  @send sample_without_key all_fine (ui hello_widget)
  = (Done (Normal tt),
     mkState true [keyMissingMessage] (lit "hello") false false None false,
     [EvMessage keyMissingMessage])
  /\ role keyMissingMessage = model
  /\ text keyMissingMessage <> Str (lit "pong")
  /\ answered all_fine = Normal (Some (lit "pong"))
  /\ callOpenRouter_settle (fetched all_fine) = Normal (Str (lit "pong"))
  /\ fst (fst (@send sample both_down (ui hello_widget))) = Done (Normal tt)
  /\ fst (fst (@send sample all_fine (ui hello_widget))) = Done (Normal tt).
Proof.
  split; [by_computation|]. split; [reflexivity|].
  split; [intros H; vm_compute in H; discriminate H|].
  repeat split; by_computation.
Qed.

(** C3 (as the code has it) at "hello" with both providers down. *)
Lemma double_failure_adds_one_notice_witness :
  API_KEY (@process_env sample) = Some (lit "primary-key")
  /\ lit "primary-key" <> []
  /\ trim (input (ui hello_widget)) <> []
  /\ reachesBackup (ui hello_widget) both_down
  /\ backupFails both_down
  /\ exists st' evs,
      @send sample both_down (ui hello_widget) = (Done (Normal tt), st', evs)
      /\ added evs = [userMessage (ui hello_widget); glitchMessage]
      /\ messages st'
         = messages (ui hello_widget)
             ++ [userMessage (ui hello_widget); glitchMessage]
      /\ List.length (messages st')
         = 2 + List.length (messages (ui hello_widget))
      /\ isBackupActive st' = true
      /\ isTyping st' = false.
Proof.
  assert (H1 : API_KEY (@process_env sample) = Some (lit "primary-key"))
    by reflexivity.
  assert (H2 : lit "primary-key" <> []) by non_empty.
  assert (H3 : trim (input (ui hello_widget)) <> []) by non_empty.
  assert (H4 : reachesBackup (ui hello_widget) both_down)
    by (right; right; exists network_down; reflexivity).
  assert (H5 : backupFails both_down) by (exists network_down; reflexivity).
  repeat (split; [assumption|]).
  exact (proj1 (@double_failure_adds_one_notice sample (ui hello_widget)
                  both_down)
           (lit "primary-key") H1 H2 H3 H4 H5).
Defined.

(** C10 at "hello": Primary resolves without text; Primary is down and the
    Backup JSON has no [choices]. *)
Lemma empty_reply_is_success_witness :
  API_KEY (@process_env sample) = Some (lit "primary-key")
  /\ lit "primary-key" <> []
  /\ trim (input (ui hello_widget)) <> []
  /\ (exists st' evs,
        @send sample primary_silent (ui hello_widget)
        = (Done (Normal tt), st', evs)
        /\ messages st'
           = messages (ui hello_widget)
               ++ [userMessage (ui hello_widget); msg model []]
        /\ added evs = [userMessage (ui hello_widget); msg model []]
        /\ isBackupActive st' = false
        /\ (forall req, ~ In (EvFetch req) evs))
  /\ (exists st' evs,
        @send sample backup_silent (ui hello_widget)
        = (Done (Normal tt), st', evs)
        /\ messages st'
           = messages (ui hello_widget)
               ++ [userMessage (ui hello_widget); msg model []]
        /\ added evs = [userMessage (ui hello_widget); msg model []]).
Proof.
  assert (H1 : API_KEY (@process_env sample) = Some (lit "primary-key"))
    by reflexivity.
  assert (H2 : lit "primary-key" <> []) by non_empty.
  assert (H3 : trim (input (ui hello_widget)) <> []) by non_empty.
  repeat (split; [assumption|]).
  split.
  - apply (proj1 (@empty_reply_is_success sample (ui hello_widget)
                    primary_silent (lit "primary-key") H1 H2 H3)).
    + reflexivity.
    + vm_compute. discriminate.
    + reflexivity.
  - apply (proj2 (@empty_reply_is_success sample (ui hello_widget)
                    backup_silent (lit "primary-key") H1 H2 H3)
             (or_intror (or_intror (ex_intro _ network_down eq_refl)))
             no_choices_response (Obj [(lit "id", Str (lit "gen-1"))])).
    + reflexivity.
    + reflexivity.
    + reflexivity.
    + discriminate.
    + discriminate.
    + by_computation.
Defined.

(** A Backup body that is the JSON [null] cannot be read: [callOpenRouter]
    throws and the turn ends with the glitch notice. *)
Example null_body_is_a_backup_failure :
  callOpenRouter_settle (Normal null_response) = Throw TypeError
  /\ added (snd (@send sample
                   (mkProviders (Normal chat0) (Throw network_down)
                      (Normal null_response))
                   (ui hello_widget)))
     = [userMessage (ui hello_widget); glitchMessage].
Proof. split; by_computation. Qed.

(** In Backup mode a send that has no chat object still runs the SDK
    constructor before it turns to the Backup endpoint. *)
Example backup_mode_still_constructs :
  map isProviderCall
    (snd (or_default (@step sample (widget [] "again" None true)
                        (Send (Normal chat0)))))
  = [false; true; true]
  /\ primaryCalls
       (snd (or_default (@step sample (widget [] "again" None true)
                           (Send (Normal chat0))))) = 0.
Proof. split; by_computation. Qed.

(** C2 as stated fails: the constructor throws on "a", the send fails over
    and Backup answers; the mode is Backup and nothing is pending.  The next
    send, "b", does not go directly to Backup: it runs the Primary SDK
    constructor first and fetches from the Backup endpoint after it. *)
Lemma backup_mode_send_runs_primary_constructor :
  @run sample overlap_start constructor_down_run
  = Some (fst constructor_down_mid, snd constructor_down_mid)
  /\ isBackupActive (ui (fst constructor_down_mid)) = true
  /\ inflight (fst constructor_down_mid) = []
  /\ chatClient (ui (fst constructor_down_mid)) = None
  /\ option_map snd
       (@step sample (fst constructor_down_mid) (Send (Normal chat0)))
     = Some [ EvMessage (msg user (lit "b"));
              EvCreateChat (lit "primary-key");
              EvFetch (@callOpenRouter_request sample
                         [ msg user (lit "a");
                           mkMessage model (Str (lit "pong")) None;
                           msg user (lit "b") ]) ]
  /\ map isProviderCall
       [ EvMessage (msg user (lit "b"));
         EvCreateChat (lit "primary-key") ]
     = [false; true].
Proof. repeat split; by_computation. Qed.

(** C2 (as the code has it) on a session where "a" fails over and "b" is
    sent afterwards. *)
Lemma sticky_failover_witness :
  @run sample overlap_start failover_before
  = Some (fst failover_mid, snd failover_mid)
  /\ isBackupActive (ui (fst failover_mid)) = true
  /\ @run sample (fst failover_mid) failover_after
     = Some (fst failover_end, snd failover_end)
  /\ isBackupActive (ui (fst failover_end)) = true
  /\ (forall e, In e (snd failover_end) -> isPrimaryCall e = false)
  /\ primaryCalls (snd failover_mid ++ snd failover_end)
     <= sendsIssued failover_before.
Proof.
  assert (H1 : @run sample overlap_start failover_before
               = Some (fst failover_mid, snd failover_mid)) by by_computation.
  assert (H2 : isBackupActive (ui (fst failover_mid)) = true) by reflexivity.
  assert (H3 : @run sample (fst failover_mid) failover_after
               = Some (fst failover_end, snd failover_end)) by by_computation.
  repeat (split; [assumption|]).
  destruct (@sticky_failover sample _ _ _ _ _ _ _ H1 H2 H3)
    as (Ha & Hb & Hc & _).
  repeat split; assumption.
Defined.

(** C4 as stated fails: the second send is accepted while the first is
    pending (two invocations are then suspended), and once both have
    completed the transcript reads a, b, B, A. *)
Lemma overlapping_sends_interleave :
  option_map (fun r => List.length (inflight (fst r)))
    (@run sample overlap_start
       [Send (Normal chat0); Typed (lit "b"); Send (Normal chat0)])
  = Some 2
  /\ option_map
       (fun r => (inflight (fst r), map turn (messages (ui (fst r)))))
       (@run sample overlap_start overlap_run)
     = Some ([], [ (user, Str (lit "a")); (user, Str (lit "b"));
                   (model, Str (lit "B")); (model, Str (lit "A")) ])
  /\ turns_closed [user; user; model; model] = false.
Proof. repeat split; by_computation. Qed.

(** C4 (as the code has it): the second send is accepted while the first
    is pending; the session run one send at a time keeps its turns. *)
Lemma turn_order_needs_one_send_at_a_time_witness :
  (exists sys1 evs k,
      @step sample second_widget (Send (Normal chat0)) = Some (sys1, evs)
      /\ inflight sys1
         = inflight second_widget ++ [(nextId second_widget, k)]
      /\ map turn (messages (ui sys1))
         = map turn (messages (ui second_widget))
             ++ [(user, Str (input (ui second_widget)))])
  /\ inflight overlap_start = []
  /\ one_at_a_time (cfg := sample) overlap_start
       (failover_before ++ failover_after) = true
  /\ @run sample overlap_start (failover_before ++ failover_after)
     = Some (fst sequential_end, snd sequential_end)
  /\ inflight (fst sequential_end) = []
  /\ turns_closed (map role (messages (ui (fst sequential_end)))) = true.
Proof.
  destruct (@turn_order_needs_one_send_at_a_time sample) as [Hopen Hseq].
  split.
  { apply (Hopen second_widget (Normal chat0) (lit "primary-key"));
      [reflexivity | non_empty | non_empty]. }
  assert (H1 : inflight overlap_start = []) by reflexivity.
  assert (H2 : one_at_a_time (cfg := sample) overlap_start
                 (failover_before ++ failover_after) = true)
    by by_computation.
  assert (H3 : @run sample overlap_start (failover_before ++ failover_after)
               = Some (fst sequential_end, snd sequential_end))
    by by_computation.
  assert (H4 : inflight (fst sequential_end) = []) by reflexivity.
  repeat (split; [assumption|]).
  destruct (Hseq overlap_start _ _ _ H1 eq_refl H2 H3) as (_ & Hc & _).
  exact (Hc H4).
Defined.



(** ** ThemeProvider, NavBar and ProjectShowcase *)

Lemma jsstring_eqb_eq (a b : jsstring) : jsstring_eqb a b = true <-> a = b.
Proof.
  unfold jsstring_eqb. destruct (list_eq_dec N.eq_dec a b); split;
    congruence.
Qed.

Lemma jsstring_eqb_refl (a : jsstring) : jsstring_eqb a a = true.
Proof. apply jsstring_eqb_eq. reflexivity. Qed.

Lemma effectiveTheme_syncTheme (t t' : jsstring) (b : Browser) :
  effectiveTheme t (syncTheme t' b) = effectiveTheme t b.
Proof. reflexivity. Qed.

Lemma setThemeState_spec (current next : jsstring) (b : Browser) :
  theme (setThemeState current next b) = next
  /\ (browser (setThemeState current next b) = b /\ next = current
      \/ browser (setThemeState current next b) = syncTheme next b
         /\ next <> current).
Proof.
  unfold setThemeState.
  destruct (jsstring_eqb next current) eqn:He; simpl.
  - apply jsstring_eqb_eq in He. split; [congruence|]. left; auto.
  - split; [reflexivity|]. right. split; [reflexivity|].
    intros H. apply jsstring_eqb_eq in H. congruence.
Qed.

(** X11. What the provider settles on at mount.  A non-empty stored theme
    wins over everything; otherwise a default of 'system' is resolved at once
    to 'dark' or 'light' from the system preference ('light' when
    [matchMedia] is missing), and any other default is kept.  Whatever the
    case, once mounted the dark class on the document agrees with the theme
    in force, and localStorage holds the theme if it can be written (the
    first write, made with the default before the stored value is applied,
    does not survive). *)
Theorem theme_after_mount (d : jsstring) (b : Browser) :
  theme (mountThemeProvider d b)
  = match stored_theme b with
    | Some (c :: saved) => c :: saved
    | _ => if jsstring_eqb d (lit "system") then systemTheme b else d
    end
  /\ class_in_sync (mountThemeProvider d b)
  /\ stored_theme (browser (mountThemeProvider d b))
     = (if storage_writable b
        then Some (theme (mountThemeProvider d b))
        else stored_theme b)
  /\ (storage_writable (browser (mountThemeProvider d b)),
      media (browser (mountThemeProvider d b)),
      media_events (browser (mountThemeProvider d b)))
     = (storage_writable b, media b, media_events b).
Proof.
  unfold mountThemeProvider, initialTheme, class_in_sync.
  assert (Hgo : forall t,
             theme (setThemeState d t (syncTheme d b)) = t
             /\ dark_class (browser (setThemeState d t (syncTheme d b)))
                = jsstring_eqb
                    (effectiveTheme (theme (setThemeState d t (syncTheme d b)))
                       (browser (setThemeState d t (syncTheme d b))))
                    (lit "dark")
             /\ stored_theme (browser (setThemeState d t (syncTheme d b)))
                = (if storage_writable b
                   then Some (theme (setThemeState d t (syncTheme d b)))
                   else stored_theme b)
             /\ (storage_writable (browser (setThemeState d t (syncTheme d b))),
                 media (browser (setThemeState d t (syncTheme d b))),
                 media_events (browser (setThemeState d t (syncTheme d b))))
                = (storage_writable b, media b, media_events b)).
  { intros t. destruct (setThemeState_spec d t (syncTheme d b))
      as [Ht [[Hb He] | [Hb He]]]; rewrite Ht, Hb.
    - subst t. repeat split; simpl; destruct (storage_writable b); reflexivity.
    - repeat split; simpl; destruct (storage_writable b); reflexivity. }
  destruct (stored_theme b) as [[|c saved]|] eqn:Hs.
  - destruct (jsstring_eqb d (lit "system")) eqn:Hd.
    + exact (Hgo (systemTheme b)).
    + simpl. rewrite Hs. repeat split; destruct (storage_writable b); reflexivity.
  - exact (Hgo (c :: saved)).
  - destruct (jsstring_eqb d (lit "system")) eqn:Hd.
    + exact (Hgo (systemTheme b)).
    + simpl. rewrite Hs. repeat split; destruct (storage_writable b); reflexivity.
Qed.

Lemma themeRun_cons (d : jsstring) (s : ThemeState) (e : ThemeEvent)
  (es : list ThemeEvent) :
  themeRun d s (e :: es) = themeRun d (themeStep d s e) es.
Proof. reflexivity. Qed.

(** The stored theme is the theme, as long as storage can be written. *)
Lemma step_keeps_storage (d : jsstring) (s : ThemeState) (e : ThemeEvent) :
  storage_writable (browser s) = true ->
  stored_theme (browser s) = Some (theme s) ->
  storage_writable (browser (themeStep d s e)) = true
  /\ stored_theme (browser (themeStep d s e)) = Some (theme (themeStep d s e)).
Proof.
  intros Hw Hst.
  assert (Hset : forall t,
             storage_writable (browser (setTheme t s)) = true
             /\ stored_theme (browser (setTheme t s)) = Some (theme (setTheme t s))).
  { intros t. unfold setTheme.
    destruct (setThemeState_spec (theme s) t (browser s))
      as [Ht [[Hb He] | [Hb He]]]; rewrite Ht, Hb.
    - subst t. auto.
    - simpl. rewrite Hw. auto. }
  destruct e; simpl.
  - apply Hset.
  - unfold toggleTheme. apply Hset.
  - unfold onPrefChange. destruct (media (browser s)); simpl; auto.
Qed.

Lemma run_keeps_storage (d : jsstring) (es : list ThemeEvent) :
  forall s,
    storage_writable (browser s) = true ->
    stored_theme (browser s) = Some (theme s) ->
    stored_theme (browser (themeRun d s es)) = Some (theme (themeRun d s es)).
Proof.
  induction es as [|e es IH]; intros s Hw Hst; [exact Hst|].
  rewrite themeRun_cons.
  destruct (step_keeps_storage d s e Hw Hst) as [Hw1 Hst1].
  exact (IH _ Hw1 Hst1).
Qed.

Lemma mount_restores (d : jsstring) (b : Browser) (t : jsstring) :
  stored_theme b = Some t ->
  t <> [] ->
  theme (mountThemeProvider d b) = t.
Proof.
  intros Hs Ht. unfold mountThemeProvider, initialTheme. rewrite Hs.
  destruct t as [|c saved]; [congruence|].
  apply setThemeState_spec.
Qed.

Lemma mount_stores (d : jsstring) (b : Browser) :
  storage_writable b = true ->
  storage_writable (browser (mountThemeProvider d b)) = true
  /\ stored_theme (browser (mountThemeProvider d b))
     = Some (theme (mountThemeProvider d b)).
Proof.
  intros Hw. unfold mountThemeProvider.
  assert (Hgo : forall t,
             storage_writable (browser (setThemeState d t (syncTheme d b))) = true
             /\ stored_theme (browser (setThemeState d t (syncTheme d b)))
                = Some (theme (setThemeState d t (syncTheme d b)))).
  { intros t. destruct (setThemeState_spec d t (syncTheme d b))
      as [Ht [[Hb He] | [Hb He]]]; rewrite Ht, Hb; simpl; rewrite Hw.
    - subst t. auto.
    - auto. }
  destruct (initialTheme d b) as [t|]; [apply Hgo|].
  simpl. rewrite Hw. auto.
Qed.

(** X12. The theme survives a reload.  If localStorage can be written,
    then after mounting and any sequence of theme changes, toggles and
    system-preference changes, localStorage holds the current theme, and
    mounting the provider again on that browser (with any default) comes
    back to the same theme, provided it is a non-empty string. *)
Theorem theme_survives_reload (d d' : jsstring) (b : Browser)
  (es : list ThemeEvent) :
  storage_writable b = true ->
  theme (themeRun d (mountThemeProvider d b) es) <> [] ->
  stored_theme (browser (themeRun d (mountThemeProvider d b) es))
  = Some (theme (themeRun d (mountThemeProvider d b) es))
  /\ theme (mountThemeProvider d'
              (browser (themeRun d (mountThemeProvider d b) es)))
     = theme (themeRun d (mountThemeProvider d b) es).
Proof.
  intros Hw Hne.
  destruct (mount_stores d b Hw) as [Hw1 Hst1].
  pose proof (run_keeps_storage d es _ Hw1 Hst1) as Hst.
  split; [exact Hst|].
  apply mount_restores; assumption.
Qed.

(** X13. The toggle.  [toggleTheme] turns 'dark' into 'light' and anything
    else into 'dark', and always leaves the document class in agreement with
    the new theme, whatever the state it starts from.  On a state whose
    class and storage agree with a theme that is 'dark' or 'light', toggling
    twice gives back exactly the state it started from. *)
Theorem toggle_twice_restores (s : ThemeState) :
  theme (toggleTheme s)
  = (if jsstring_eqb (theme s) (lit "dark") then lit "light" else lit "dark")
  /\ class_in_sync (toggleTheme s)
  /\ ((theme s = lit "dark" \/ theme s = lit "light") ->
      class_in_sync s ->
      (storage_writable (browser s) = true ->
       stored_theme (browser s) = Some (theme s)) ->
      toggleTheme (toggleTheme s) = s).
Proof.
  split; [|split].
  - unfold toggleTheme, setTheme. apply setThemeState_spec.
  - unfold class_in_sync, toggleTheme, setTheme.
    destruct (setThemeState_spec (theme s)
                (if jsstring_eqb (theme s) (lit "dark")
                 then lit "light" else lit "dark") (browser s))
      as [Ht [[Hb He] | [Hb He]]]; rewrite Ht, Hb; [|reflexivity].
    exfalso. destruct (jsstring_eqb (theme s) (lit "dark")) eqn:Hd.
    + apply jsstring_eqb_eq in Hd. rewrite Hd in He.
      vm_compute in He. discriminate He.
    + rewrite <- He in Hd. vm_compute in Hd. discriminate Hd.
  - unfold class_in_sync.
    destruct s as [t [st w m me dc]]. simpl.
    intros [-> | ->] Hc Hst.
    + unfold toggleTheme, setTheme, setThemeState, syncTheme. simpl.
      vm_compute in Hc. subst dc.
      destruct w; simpl in *; [rewrite (Hst eq_refl)|]; reflexivity.
    + unfold toggleTheme, setTheme, setThemeState, syncTheme. simpl.
      vm_compute in Hc. subst dc.
      destruct w; simpl in *; [rewrite (Hst eq_refl)|]; reflexivity.
Qed.

Lemma step_keeps_class (d : jsstring) (s : ThemeState) (e : ThemeEvent) :
  class_in_sync s ->
  isPrefChange e = false ->
  class_in_sync (themeStep d s e).
Proof.
  unfold class_in_sync. intros Hc He.
  assert (Hset : forall t,
             dark_class (browser (setTheme t s))
             = jsstring_eqb
                 (effectiveTheme (theme (setTheme t s)) (browser (setTheme t s)))
                 (lit "dark")).
  { intros t. unfold setTheme.
    destruct (setThemeState_spec (theme s) t (browser s))
      as [Ht [[Hb Heq] | [Hb Heq]]]; rewrite Ht, Hb.
    - subst t. exact Hc.
    - reflexivity. }
  destruct e; simpl; [apply Hset | apply Hset | discriminate].
Qed.

(** X14. Without system-preference changes the page never shows the wrong
    theme: after mounting and any sequence of [setTheme] calls and toggles,
    the dark class is on the document exactly when the theme in force
    ('system' resolved through the system preference) is 'dark'. *)
Theorem class_follows_theme (d : jsstring) (b : Browser)
  (es : list ThemeEvent) :
  forallb (fun e => negb (isPrefChange e)) es = true ->
  class_in_sync (themeRun d (mountThemeProvider d b) es).
Proof.
  assert (Hm : class_in_sync (mountThemeProvider d b)).
  { unfold mountThemeProvider, class_in_sync.
    destruct (initialTheme d b) as [t|]; [|reflexivity].
    destruct (setThemeState_spec d t (syncTheme d b))
      as [Ht [[Hb He] | [Hb He]]]; rewrite Ht, Hb.
    - subst t. reflexivity.
    - reflexivity. }
  revert Hm. generalize (mountThemeProvider d b).
  induction es as [|e es IH]; intros s Hs Hes; [exact Hs|].
  simpl in Hes. apply andb_prop in Hes. destruct Hes as [He Hes].
  rewrite themeRun_cons. apply IH; [|exact Hes].
  apply step_keeps_class; [exact Hs|].
  destruct (isPrefChange e); [discriminate | reflexivity].
Qed.

(** The listener of the first effect tests the theme of the first render:
    with the default 'system' and "light" stored, a system switch to dark
    puts the dark class on a page whose theme is 'light'. *)
Example preference_change_overrides_choice :
  theme (themeRun (lit "system")
           (mountThemeProvider (lit "system")
              (mkBrowser (Some (lit "light")) true (Some false) true false))
           [PrefChange true])
  = lit "light"
  /\ dark_class
       (browser
          (themeRun (lit "system")
             (mountThemeProvider (lit "system")
                (mkBrowser (Some (lit "light")) true (Some false) true false))
             [PrefChange true]))
     = true.
Proof. split; vm_compute; reflexivity. Qed.

(** X15. The status light.  For a time string that starts with a two-digit
    hour and a colon, the status is Building exactly for the hours 00, 01
    and 09 to 23; it is Recharging for 02 to 08 and also for 24, which some
    engines print for midnight.  A string that starts with anything but
    white space, a sign or a digit parses to NaN and gives Recharging.  The
    string itself is shown as it came. *)
Theorem status_light_by_hour (tens units : N) (rest : jsstring) :
  (tens < 10)%N ->
  (units < 10)%N ->
  isBuilding (updateTime (clockString tens units rest))
  = ((9 <=? 10 * tens + units) && (10 * tens + units <=? 23)
     || (10 * tens + units <? 2))%N
  /\ time (updateTime (clockString tens units rest))
     = clockString tens units rest
  /\ forall c s,
       isWhiteSpace c = false -> isDigit c = false ->
       c <> 45%N -> c <> 43%N ->
       isBuilding (updateTime (c :: s)) = false.
Proof.
  intros Ht Hu. split; [|split; [reflexivity|]].
  - assert (Hta : (tens = 0 \/ tens = 1 \/ tens = 2 \/ tens = 3 \/ tens = 4
                   \/ tens = 5 \/ tens = 6 \/ tens = 7 \/ tens = 8
                   \/ tens = 9)%N) by lia.
    assert (Hua : (units = 0 \/ units = 1 \/ units = 2 \/ units = 3
                   \/ units = 4 \/ units = 5 \/ units = 6 \/ units = 7
                   \/ units = 8 \/ units = 9)%N) by lia.
    clear Ht Hu.
    repeat (destruct Hta as [Hta | Hta]); subst tens;
      repeat (destruct Hua as [Hua | Hua]); subst units; reflexivity.
  - intros c s Hw Hd H45 H43.
    assert (Hp : parseInt10 (beforeColon (c :: s)) = None).
    { simpl beforeColon. destruct (c =? 58)%N; [reflexivity|].
      unfold parseInt10. simpl trimStart. rewrite Hw.
      generalize (beforeColon s). intros r.
      destruct c as [|p];
        [|do 6 (try match goal with q : positive |- _ => destruct q end)];
        try congruence; cbv beta iota zeta; rewrite Hd; reflexivity. }
    unfold updateTime. cbn [isBuilding]. rewrite Hp. reflexivity.
Qed.

Lemma filter_three_way (ps : list Project) :
  List.length (filtered (Only Prototype) ps)
  + List.length (filtered (Only Research) ps)
  + List.length (filtered (Only Ops) ps)
  = List.length ps.
Proof.
  induction ps as [|p ps IH]; simpl; [reflexivity|].
  simpl in IH. destruct (category p); simpl; lia.
Qed.

(** X16. The category tabs.  'All' shows the whole list unchanged.  Each
    of the three category tabs shows exactly the projects of that category,
    so every project appears under one tab and only one, and the three tabs
    together hold as many entries as the list. *)
Theorem category_tabs_partition (ps : list Project) :
  filtered All ps = ps
  /\ (forall c p,
        In p (filtered (Only c) ps) <-> In p ps /\ category p = c)
  /\ (forall p, In p ps ->
        exists c, In p (filtered (Only c) ps)
                  /\ forall c', In p (filtered (Only c') ps) -> c' = c)
  /\ List.length (filtered (Only Prototype) ps)
     + List.length (filtered (Only Research) ps)
     + List.length (filtered (Only Ops) ps)
     = List.length ps.
Proof.
  assert (Hin : forall c p,
             In p (filtered (Only c) ps) <-> In p ps /\ category p = c).
  { intros c p. simpl. rewrite filter_In.
    destruct (category p), c; simpl; intuition congruence. }
  split; [reflexivity|]. split; [exact Hin|]. split.
  - intros p Hp. exists (category p). split.
    + apply Hin. auto.
    + intros c' Hc'. apply Hin in Hc'. destruct Hc' as [_ ->]. reflexivity.
  - apply filter_three_way.
Qed.

(** ** The further properties at sample inputs *)

(** X1 on two overlapping sends that both get answered. *)
Lemma transcript_is_append_only_witness :
  @run sample second_widget second_run = Some (fst second_end, snd second_end)
  /\ map turn (messages (ui (fst second_end)))
     = map turn (messages (ui second_widget))
         ++ map turn (added (snd second_end))
  /\ List.length (messages (ui (fst second_end)))
     = List.length (messages (ui second_widget))
       + List.length (added (snd second_end)).
Proof.
  assert (H : @run sample second_widget second_run
              = Some (fst second_end, snd second_end)) by by_computation.
  split; [exact H|].
  destruct (@transcript_is_append_only sample _ _ _ _ H) as (A & B & _).
  split; assumption.
Defined.

(** X2 at "hello" answered "pong" by the Primary provider. *)
Lemma primary_answer_is_appended_witness :
  API_KEY (@process_env sample) = Some (lit "primary-key")
  /\ lit "primary-key" <> []
  /\ trim (input (ui hello_widget)) <> []
  /\ isBackupActive (ui hello_widget) = false
  /\ chatAvailable (ui hello_widget) all_fine = Some chat0
  /\ answered all_fine = Normal (Some (lit "pong"))
  /\ lit "pong" <> []
  /\ exists st' evs,
      @send sample all_fine (ui hello_widget) = (Done (Normal tt), st', evs)
      /\ messages st'
         = messages (ui hello_widget)
             ++ [msg user (input (ui hello_widget)); msg model (lit "pong")]
      /\ input st' = []
      /\ isTyping st' = false
      /\ isBackupActive st' = false
      /\ chatClient st' = Some chat0
      /\ filter isPrimaryCall evs
         = [EvSendMessage chat0 (input (ui hello_widget))]
      /\ fetches evs = [].
Proof.
  assert (H1 : API_KEY (@process_env sample) = Some (lit "primary-key"))
    by reflexivity.
  assert (H2 : lit "primary-key" <> []) by non_empty.
  assert (H3 : trim (input (ui hello_widget)) <> []) by non_empty.
  assert (H4 : isBackupActive (ui hello_widget) = false) by reflexivity.
  assert (H5 : chatAvailable (ui hello_widget) all_fine = Some chat0)
    by reflexivity.
  assert (H6 : answered all_fine = Normal (Some (lit "pong"))) by reflexivity.
  assert (H7 : lit "pong" <> []) by non_empty.
  repeat (split; [assumption|]).
  exact (@primary_answer_is_appended sample (ui hello_widget) all_fine
           (lit "primary-key") chat0 (lit "pong") H1 H2 H3 H4 H5 H6 H7).
Defined.

(** X3 at "hello": Primary is down, Backup answers "pong". *)
Lemma failover_is_silent_witness :
  API_KEY (@process_env sample) = Some (lit "primary-key")
  /\ lit "primary-key" <> []
  /\ trim (input (ui hello_widget)) <> []
  /\ isBackupActive (ui hello_widget) = false
  /\ (exists e, answered primary_down_backup_pong = Throw e)
  /\ callOpenRouter_settle (fetched primary_down_backup_pong)
     = Normal (Str (lit "pong"))
  /\ exists st' pre,
      @send sample primary_down_backup_pong (ui hello_widget)
      = (Done (Normal tt), st',
         pre ++ [ EvFetch (@callOpenRouter_request sample
                             (messages (ui hello_widget)
                                ++ [msg user (input (ui hello_widget))]));
                  EvMessage (mkMessage model (Str (lit "pong")) None) ])
      /\ added pre = [msg user (input (ui hello_widget))]
      /\ fetches pre = []
      /\ messages st'
         = messages (ui hello_widget)
             ++ [ msg user (input (ui hello_widget));
                  mkMessage model (Str (lit "pong")) None ]
      /\ isBackupActive st' = true
      /\ isTyping st' = false.
Proof.
  assert (H1 : API_KEY (@process_env sample) = Some (lit "primary-key"))
    by reflexivity.
  assert (H2 : lit "primary-key" <> []) by non_empty.
  assert (H3 : trim (input (ui hello_widget)) <> []) by non_empty.
  assert (H4 : isBackupActive (ui hello_widget) = false) by reflexivity.
  assert (H5 : exists e, answered primary_down_backup_pong = Throw e)
    by (exists network_down; reflexivity).
  assert (H6 : callOpenRouter_settle (fetched primary_down_backup_pong)
               = Normal (Str (lit "pong"))) by by_computation.
  repeat (split; [assumption|]).
  exact (@failover_is_silent sample (ui hello_widget) primary_down_backup_pong
           (lit "primary-key") (Str (lit "pong")) H1 H2 H3 H4
           (or_intror H5) H6).
Defined.

(** X4 at "hello". *)
Lemma second_send_without_typing_is_noop_witness :
  API_KEY (@process_env sample) = Some (lit "primary-key")
  /\ lit "primary-key" <> []
  /\ trim (input (ui hello_widget)) <> []
  /\ @step sample hello_widget (Send (Normal chat0))
     = Some (fst hello_sent, snd hello_sent)
  /\ input (ui (fst hello_sent)) = []
  /\ @step sample (fst hello_sent) (Send (Normal chat0))
     = Some (fst hello_sent, []).
Proof.
  assert (H1 : API_KEY (@process_env sample) = Some (lit "primary-key"))
    by reflexivity.
  assert (H2 : lit "primary-key" <> []) by non_empty.
  assert (H3 : trim (input (ui hello_widget)) <> []) by non_empty.
  assert (H4 : @step sample hello_widget (Send (Normal chat0))
               = Some (fst hello_sent, snd hello_sent)) by by_computation.
  repeat (split; [assumption|]).
  destruct (@second_send_without_typing_is_noop sample _ _ (Normal chat0)
              (Normal chat0) _ _ H1 H2 H3 H4) as (A & B & _).
  split; assumption.
Defined.

(** X5 on the session that fails over on "a" and then sends "b". *)
Lemma typing_flag_tracks_pending_send_witness :
  inflight overlap_start = []
  /\ isTyping (ui overlap_start) = false
  /\ one_at_a_time (cfg := sample) overlap_start
       (failover_before ++ failover_after) = true
  /\ @run sample overlap_start (failover_before ++ failover_after)
     = Some (fst sequential_end, snd sequential_end)
  /\ List.length (inflight (fst sequential_end)) <= 1
  /\ isTyping (ui (fst sequential_end)) = negb (idle (fst sequential_end)).
Proof.
  assert (H1 : inflight overlap_start = []) by reflexivity.
  assert (H2 : isTyping (ui overlap_start) = false) by reflexivity.
  assert (H3 : one_at_a_time (cfg := sample) overlap_start
                 (failover_before ++ failover_after) = true)
    by by_computation.
  assert (H4 : @run sample overlap_start (failover_before ++ failover_after)
               = Some (fst sequential_end, snd sequential_end))
    by by_computation.
  repeat (split; [assumption|]).
  exact (@typing_flag_tracks_pending_send sample _ _ _ _ H1 H2 H3 H4).
Defined.

(** X6 from the state that holds the chat object created by the first
    send. *)
Lemma chat_object_is_kept_witness :
  chatClient (ui (fst failover_first)) = Some chat0
  /\ @run sample (fst failover_first) client_run
     = Some (fst client_end, snd client_end)
  /\ chatClient (ui (fst client_end)) = Some chat0
  /\ Forall (usesChat chat0) (snd client_end).
Proof.
  assert (H1 : chatClient (ui (fst failover_first)) = Some chat0)
    by reflexivity.
  assert (H2 : @run sample (fst failover_first) client_run
               = Some (fst client_end, snd client_end)) by by_computation.
  split; [exact H1|]. split; [exact H2|].
  exact (@chat_object_is_kept sample _ _ _ _ _ H1 H2).
Defined.

(** X7 on a visit without a key. *)
Lemma no_provider_call_without_key_witness :
  @keyMissing sample_without_key
  /\ inflight hello_widget = []
  /\ @run sample_without_key hello_widget keyless_run
     = Some (fst keyless_end, snd keyless_end)
  /\ inflight (fst keyless_end) = []
  /\ forallb (fun e => negb (isProviderCall e)) (snd keyless_end) = true
  /\ chatClient (ui (fst keyless_end)) = chatClient (ui hello_widget).
Proof.
  assert (H1 : @keyMissing sample_without_key) by (left; reflexivity).
  assert (H2 : inflight hello_widget = []) by reflexivity.
  assert (H3 : @run sample_without_key hello_widget keyless_run
               = Some (fst keyless_end, snd keyless_end)) by by_computation.
  repeat (split; [assumption|]).
  destruct (@no_provider_call_without_key sample_without_key _ _ _ _ H1 H2 H3)
    as (A & B & C & _).
  repeat split; assumption.
Defined.

(** X8 on two overlapping sends, counted from the moment the first is
    already pending. *)
Lemma every_user_message_gets_a_reply_witness :
  @run sample second_widget second_run = Some (fst second_end, snd second_end)
  /\ API_KEY (@process_env sample) = Some (lit "primary-key")
  /\ lit "primary-key" <> []
  /\ messages (ui second_widget) <> []
  /\ usersIn (added (snd second_end)) + List.length (inflight second_widget)
     = modelsIn (added (snd second_end))
       + List.length (inflight (fst second_end)).
Proof.
  assert (H1 : @run sample second_widget second_run
               = Some (fst second_end, snd second_end)) by by_computation.
  assert (H2 : API_KEY (@process_env sample) = Some (lit "primary-key"))
    by reflexivity.
  assert (H3 : lit "primary-key" <> []) by non_empty.
  assert (H4 : messages (ui second_widget) <> []) by (vm_compute; discriminate).
  repeat (split; [assumption|]).
  exact (proj2 (@every_user_message_gets_a_reply sample _ _ _ _ H1)
           _ H2 H3 H4).
Defined.

(** X12 on a first visit followed by three toggles. *)
Lemma theme_survives_reload_witness :
  storage_writable fresh_browser = true
  /\ theme (themeRun (lit "system")
              (mountThemeProvider (lit "system") fresh_browser) theme_session)
     <> []
  /\ theme (mountThemeProvider (lit "system")
              (browser (themeRun (lit "system")
                          (mountThemeProvider (lit "system") fresh_browser)
                          theme_session)))
     = theme (themeRun (lit "system")
                (mountThemeProvider (lit "system") fresh_browser) theme_session).
Proof.
  assert (H1 : storage_writable fresh_browser = true) by reflexivity.
  assert (H2 : theme (themeRun (lit "system")
                        (mountThemeProvider (lit "system") fresh_browser)
                        theme_session) <> []) by non_empty.
  repeat (split; [assumption|]).
  exact (proj2 (theme_survives_reload (lit "system") (lit "system")
                  fresh_browser theme_session H1 H2)).
Defined.

(** X13 on a provider whose theme is the stored string "sepia" (anything
    else becomes 'dark'), and on the provider mounted with "light" stored
    (two toggles restore the state). *)
Lemma toggle_twice_restores_witness :
  theme (toggleTheme
           (mountThemeProvider (lit "system")
              (mkBrowser (Some (lit "sepia")) true (Some false) true false)))
  = lit "dark"
  /\ class_in_sync
       (toggleTheme
          (mountThemeProvider (lit "system")
             (mkBrowser (Some (lit "sepia")) true (Some false) true false)))
  /\ theme (mountThemeProvider (lit "system") light_stored) = lit "light"
  /\ class_in_sync (mountThemeProvider (lit "system") light_stored)
  /\ stored_theme (browser (mountThemeProvider (lit "system") light_stored))
     = Some (theme (mountThemeProvider (lit "system") light_stored))
  /\ toggleTheme (toggleTheme (mountThemeProvider (lit "system") light_stored))
     = mountThemeProvider (lit "system") light_stored.
Proof.
  split.
  { rewrite (proj1 (toggle_twice_restores
                      (mountThemeProvider (lit "system")
                         (mkBrowser (Some (lit "sepia")) true (Some false)
                            true false)))).
    by_computation. }
  split.
  { exact (proj1 (proj2 (toggle_twice_restores
                           (mountThemeProvider (lit "system")
                              (mkBrowser (Some (lit "sepia")) true (Some false)
                                 true false))))). }
  assert (H1 : theme (mountThemeProvider (lit "system") light_stored)
               = lit "light") by by_computation.
  assert (H2 : class_in_sync (mountThemeProvider (lit "system") light_stored))
    by by_computation.
  assert (H3 : stored_theme
                 (browser (mountThemeProvider (lit "system") light_stored))
               = Some (theme (mountThemeProvider (lit "system") light_stored)))
    by by_computation.
  split; [exact H1|]. split; [exact H2|]. split; [exact H3|].
  exact (proj2 (proj2 (toggle_twice_restores _)) (or_intror H1) H2
           (fun _ => H3)).
Defined.

(** X14 on three toggles after a first visit. *)
Lemma class_follows_theme_witness :
  forallb (fun e => negb (isPrefChange e)) theme_session = true
  /\ class_in_sync
       (themeRun (lit "system")
          (mountThemeProvider (lit "system") fresh_browser) theme_session).
Proof.
  assert (H1 : forallb (fun e => negb (isPrefChange e)) theme_session = true)
    by reflexivity.
  split; [exact H1|].
  exact (class_follows_theme (lit "system") fresh_browser theme_session H1).
Defined.

(** X15 at "09:05". *)
Lemma status_light_by_hour_witness :
  (0 < 10)%N
  /\ (9 < 10)%N
  /\ isBuilding (updateTime (clockString 0 9 (lit "05"))) = true
  /\ clockString 0 9 (lit "05") = lit "09:05".
Proof.
  assert (H1 : (0 < 10)%N) by reflexivity.
  assert (H2 : (9 < 10)%N) by reflexivity.
  repeat (split; [assumption|]).
  split; [|by_computation].
  rewrite (proj1 (status_light_by_hour 0 9 (lit "05") H1 H2)).
  reflexivity.
Defined.
